(** * service_crategen: the code generator core (codegen/mod.rs)

    A shallow embedding of the generation engine of rusoto's
    [service_crategen]: shape reachability, type-name mutation, the Rust
    type mapper, struct and field generation and the protocol dispatch.

    Conventions of the embedding:
    - [String] in Rust is [string]; a [BTreeMap<String, _>] is an
      association list kept in key order; a [BTreeSet<String>] is a
      strictly increasing list of strings (see [btree_insert]).
    - A panic ([unwrap], [expect], [panic!]) is an [Err] of the [result]
      type; writing to the output file is the writer state of [IoM], a list
      of the strings passed to [writeln!]. *)

From Stdlib Require Import String Ascii List Bool Arith Lia Sorted.
From Stdlib Require Import Structures.OrderedTypeEx Relations.Relation_Operators Relations.Operators_Properties.
Import ListNotations.
Open Scope string_scope.

(** ** Results and the writer monad *)

Inductive result (A : Type) : Type :=
| Ok (a : A)
| Err (msg : string).
Arguments Ok {A} a.
Arguments Err {A} msg.

Definition rbind {A B} (c : result A) (k : A -> result B) : result B :=
  match c with
  | Ok a => k a
  | Err m => Err m
  end.

Notation "x <-? c ;; k" := (rbind c (fun x => k))
  (at level 61, c at next level, right associativity).

(** [Option::unwrap] / [Option::expect]. *)
Definition unwrap {A} (msg : string) (o : option A) : result A :=
  match o with
  | Some a => Ok a
  | None => Err msg
  end.

(** [Iterator::try_fold]-like sequencing of a fallible step over a list. *)
Fixpoint fold_result {A B} (f : B -> A -> result B) (l : list A) (b : B)
  : result B :=
  match l with
  | [] => Ok b
  | x :: l' => match f b x with
               | Ok b' => fold_result f l' b'
               | Err m => Err m
               end
  end.

(** Writing to the [FileWriter]: the state is the list of lines written so
    far; a panic stops with the lines written up to it. *)
Definition IoM (A : Type) : Type := list string -> result A * list string.

Definition ret {A} (a : A) : IoM A := fun w => (Ok a, w).

Definition bind {A B} (c : IoM A) (k : A -> IoM B) : IoM B :=
  fun w => match c w with
           | (Ok a, w') => k a w'
           | (Err m, w') => (Err m, w')
           end.

Notation "x <- c ;; k" := (bind c (fun x => k))
  (at level 61, c at next level, right associativity).
Notation "c ;;; k" := (bind c (fun _ => k))
  (at level 61, right associativity).

Definition writeln (s : string) : IoM unit := fun w => (Ok tt, (w ++ [s])%list).

Definition panic {A} (msg : string) : IoM A := fun w => (Err msg, w).

(** A fallible pure computation inside [IoM]. *)
Definition lift {A} (r : result A) : IoM A :=
  fun w => match r with
           | Ok a => (Ok a, w)
           | Err m => (Err m, w)
           end.

Fixpoint iterM {A} (f : A -> IoM unit) (l : list A) : IoM unit :=
  match l with
  | [] => ret tt
  | x :: l' => f x ;;; iterM f l'
  end.

(** ** Characters used in generated text *)

Definition dq : string := String (ascii_of_nat 34) EmptyString.
Definition nl : string := String (ascii_of_nat 10) EmptyString.

(** ** Data model (crate::botocore, crate::Service) *)

Module ShapeType.
Inductive t :=
| Blob | Boolean | Double | Float | Integer | Long | String | Timestamp
| List | Map | Structure.

Definition eq_dec (a b : t) : {a = b} + {a <> b}.
Proof. decide equality. Defined.

(** [PartialEq] on [ShapeType]. *)
Definition eqb (a b : t) : bool := if eq_dec a b then true else false.
End ShapeType.

Module Member.
Record t := mk {
  shape : string;
  deprecated : option bool;
  documentation : option string;
  streaming_flag : option bool
}.

(** Modelled from the spec: [Member::streaming] (botocore.rs, not in the
    sources): the member's own streaming flag, absent meaning false. *)
Definition streaming (m : t) : bool :=
  match streaming_flag m with Some b => b | None => false end.
End Member.

Module Shape.
Record t := mk {
  shape_type : ShapeType.t;
  (** [Option<BTreeMap<String, Member>>], in key order *)
  members : option (list (string * Member.t));
  (** list element *)
  member : option Member.t;
  key : option Member.t;
  value : option Member.t;
  required_names : option (list string);
  exception_flag : option bool;
  documentation : option string
}.

(** Modelled from the spec: [Shape::required] (botocore.rs, not in the
    sources): a member is required when the schema lists it as required. *)
Definition required (s : t) (field : string) : bool :=
  match required_names s with
  | Some l => existsb (String.eqb field) l
  | None => false
  end.

(** Modelled from the spec: [Shape::exception] (botocore.rs, not in the
    sources): the is-exception flag, absent meaning false. *)
Definition exception (s : t) : bool :=
  match exception_flag s with Some b => b | None => false end.

(** Modelled from the spec: [Shape::member_type], [key_type],
    [value_type] (botocore.rs, not in the sources): the element, key and
    value shape references; a missing one is a panic. *)
Definition member_type (s : t) : result string :=
  match member s with Some m => Ok (Member.shape m) | None => Err "Member type undefined" end.
Definition key_type (s : t) : result string :=
  match key s with Some m => Ok (Member.shape m) | None => Err "Key type undefined" end.
Definition value_type (s : t) : result string :=
  match value s with Some m => Ok (Member.shape m) | None => Err "Value type undefined" end.
End Shape.

Module Operation.
(** Shape references ([Input], [Output], [Error]) are their [shape]
    names. *)
Record t := mk {
  input : option string;
  output : option string;
  errors : option (list string)
}.
End Operation.

(** A [Service]: [name], [protocol] and [service_type_name] are the
    values of the accessors of the same names. *)
Module Service.
Record t := mk {
  name : string;
  protocol : string;
  service_type_name : string;
  shapes : list (string * Shape.t);
  operations : list (string * Operation.t)
}.

Fixpoint assoc_lookup {A} (k : string) (l : list (string * A)) : option A :=
  match l with
  | [] => None
  | (k', a) :: l' => if String.eqb k k' then Some a else assoc_lookup k l'
  end.

(** Modelled from the spec: [Service::get_shape] (service.rs, not in the
    sources): lookup in the mapping from shape name to shape. *)
Definition get_shape (svc : t) (n : string) : option Shape.t :=
  assoc_lookup n (shapes svc).

(** Modelled from the spec: [Service::shape_for_member] and
    [shape_type_for_member] (service.rs): the shape a member refers to. *)
Definition shape_for_member (svc : t) (m : Member.t) : option Shape.t :=
  get_shape svc (Member.shape m).
Definition shape_type_for_member (svc : t) (m : Member.t)
  : option ShapeType.t :=
  option_map Shape.shape_type (shape_for_member svc m).
End Service.

(** ** Type names *)

(** [char::to_uppercase] on ASCII. *)
Definition ascii_to_upper (c : ascii) : ascii :=
  let n := nat_of_ascii c in
  if Nat.leb 97 n && Nat.leb n 122 then ascii_of_nat (n - 32)%nat else c.

(** Modelled from the spec: [util::capitalize_first] (util.rs, not in the
    sources): the first character upper-cased, the rest unchanged. *)
Definition capitalize_first (word : string) : string :=
  match word with
  | EmptyString => EmptyString
  | String f rest => String (ascii_to_upper f) rest
  end.

(** [str::replace("_", "")]. *)
Fixpoint remove_underscores (s : string) : string :=
  match s with
  | EmptyString => EmptyString
  | String c rest =>
      if Ascii.eqb c "_"%char then remove_underscores rest
      else String c (remove_underscores rest)
  end.

(** [mutate_type_name] (mod.rs 297-331). *)
Definition mutate_type_name (service : Service.t) (type_name : string) : string :=
  let capitalized := capitalize_first type_name in
  let without_underscores := remove_underscores capitalized in
  if without_underscores =? "Error" then Service.service_type_name service ++ "Error"
  else if without_underscores =? "CancelSpotFleetRequests" then "EC2CancelSpotFleetRequests"
  else if without_underscores =? "BatchStopJobRun" then "GlueBatchStopJobRun"
  else if without_underscores =? "Option" then "RDSOption"
  else if without_underscores =? "BatchDeleteImportDataError" then "DiscoveryBatchDeleteImportDataError"
  else if without_underscores =? "CreateFleetError" then "EC2CreateFleetError"
  else if without_underscores =? "BatchDescribeMergeConflictsError" then "CodeCommitBatchDescribeMergeConflictsError"
  else if without_underscores =? "BatchGetCommitsError" then "CodeCommitBatchGetCommitsError"
  else without_underscores.

(** [mutate_type_name_for_streaming] (mod.rs 334-336). *)
Definition mutate_type_name_for_streaming (type_name : string) : string :=
  "Streaming" ++ type_name.

(** [error_type_name] (mod.rs 601-604): the name of an operation's error
    enum. *)
Definition error_type_name (service : Service.t) (name : string) : string :=
  mutate_type_name service name ++ "Error".

(** ** The type mapper *)

(** [get_rust_type] (mod.rs 229-277). The Rust recursion through list
    element, map key and map value shapes has no bound of its own (a cycle
    of list and map shapes overflows the stack); here it runs on [fuel],
    and [get_rust_type] below gives one more unit than there are shapes,
    which every acyclic chain of list and map shapes fits in. *)
Fixpoint get_rust_type_fuel (fuel : nat) (service : Service.t) (shape_name : string)
    (shape : Shape.t) (streaming : bool) (for_timestamps : string) : result string :=
  if negb streaming then
    match Shape.shape_type shape with
    | ShapeType.Blob => Ok "bytes::Bytes"
    | ShapeType.Boolean => Ok "bool"
    | ShapeType.Double => Ok "f64"
    | ShapeType.Float => Ok "f32"
    | ShapeType.Integer | ShapeType.Long => Ok "i64"
    | ShapeType.String => Ok "String"
    | ShapeType.Timestamp => Ok for_timestamps
    | ShapeType.List =>
        match fuel with
        | O => Err "get_rust_type: unbounded recursion"
        | S f =>
            mt <-? Shape.member_type shape ;;
            ms <-? unwrap "called `Option::unwrap()` on a `None` value" (Service.get_shape service mt) ;;
            t <-? get_rust_type_fuel f service mt ms false for_timestamps ;;
            Ok ("Vec<" ++ t ++ ">")
        end
    | ShapeType.Map =>
        match fuel with
        | O => Err "get_rust_type: unbounded recursion"
        | S f =>
            kt <-? Shape.key_type shape ;;
            ks <-? unwrap "called `Option::unwrap()` on a `None` value" (Service.get_shape service kt) ;;
            k <-? get_rust_type_fuel f service kt ks false for_timestamps ;;
            vt <-? Shape.value_type shape ;;
            vs <-? unwrap "called `Option::unwrap()` on a `None` value" (Service.get_shape service vt) ;;
            v <-? get_rust_type_fuel f service vt vs false for_timestamps ;;
            Ok ("::std::collections::HashMap<" ++ k ++ ", " ++ v ++ ">")
        end
    | ShapeType.Structure => Ok (mutate_type_name service shape_name)
    end
  else Ok (mutate_type_name_for_streaming shape_name).

Definition get_rust_type (service : Service.t) (shape_name : string) (shape : Shape.t)
    (streaming : bool) (for_timestamps : string) : result string :=
  get_rust_type_fuel (S (length (Service.shapes service))) service shape_name shape
    streaming for_timestamps.

(** [streaming_members] (mod.rs 279-287): the members, in key order, whose
    own streaming flag is set. *)
Definition streaming_members (shape : Shape.t) : list Member.t :=
  match Shape.members shape with
  | Some ms => filter Member.streaming (map snd ms)
  | None => []
  end.

(** [is_streaming_shape] (mod.rs 289-294). *)
Definition is_streaming_shape (service : Service.t) (name : string) : bool :=
  existsb (fun '(_, shape) =>
             existsb (fun member => Member.shape member =? name)
                     (streaming_members shape))
          (Service.shapes service).

(** ** Protocol dispatch *)

(** The four [GenerateProtocol] implementations (json.rs, query.rs,
    rest_json.rs, rest_xml.rs) and the three [GenerateErrorTypes] ones
    (error_types.rs). *)
Inductive ProtocolGeneratorImpl :=
| JsonGenerator | QueryGenerator | RestJsonGenerator | RestXmlGenerator.

Inductive ErrorTypesImpl :=
| JsonErrorTypes | XmlErrorTypes | RestJsonErrorTypes.

(** The [match service.protocol()] of [generate_source] (mod.rs 88-94):
    the pair of generators passed to [generate], or the panic. *)
Definition select_generators (protocol : string)
  : result (ProtocolGeneratorImpl * ErrorTypesImpl) :=
  if protocol =? "json" then Ok (JsonGenerator, JsonErrorTypes)
  else if (protocol =? "query") || (protocol =? "ec2") then Ok (QueryGenerator, XmlErrorTypes)
  else if protocol =? "rest-json" then Ok (RestJsonGenerator, RestJsonErrorTypes)
  else if protocol =? "rest-xml" then Ok (RestXmlGenerator, XmlErrorTypes)
  else Err ("Unknown protocol " ++ protocol).

(** ** Reachability *)

(** [BTreeSet::<String>::insert]: the set is kept strictly increasing in
    the lexicographic order of [String]; the flag says whether the value
    was new. *)
Fixpoint btree_insert (x : string) (set : list string) : bool * list string :=
  match set with
  | [] => (true, [x])
  | y :: set' =>
      match String.compare x y with
      | Lt => (true, x :: set)
      | Eq => (false, set)
      | Gt => let (fresh, set'') := btree_insert x set' in (fresh, y :: set'')
      end
  end.

(** Modelled from the spec: the shape references [Service::visit_shapes]
    (service.rs, not in the sources) descends into: the element of a list,
    the key and value of a map, the members of a structure. *)
Definition shape_children (shape : Shape.t) : result (list string) :=
  match Shape.shape_type shape with
  | ShapeType.List => mt <-? Shape.member_type shape ;; Ok [mt]
  | ShapeType.Map =>
      kt <-? Shape.key_type shape ;; vt <-? Shape.value_type shape ;; Ok [kt; vt]
  | ShapeType.Structure =>
      Ok (match Shape.members shape with
          | Some ms => map (fun p => Member.shape (snd p)) ms
          | None => []
          end)
  | _ => Ok []
  end.

(** Modelled from the spec: [Service::visit_shapes] (service.rs, not in
    the sources) with the visitor of [find_shapes_to_generate], which
    inserts the visited name into the [BTreeSet] and lets the traversal go
    on only when the name was new. An unresolved shape reference is a
    panic. Each nested call follows the insertion of a new name, so the
    recursion depth is bounded by the number of shapes; [fuel] makes that
    bound explicit ([visit_shapes_total] shows it is never reached). *)
Fixpoint visit_shapes (fuel : nat) (service : Service.t) (shape_name : string)
    (visited : list string) : result (list string) :=
  match fuel with
  | O => Err "visit_shapes: recursion deeper than the number of shapes"
  | S f =>
      shape <-? unwrap "Shape type missing from service definition"
                  (Service.get_shape service shape_name) ;;
      let (fresh, visited') := btree_insert shape_name visited in
      if fresh then
        children <-? shape_children shape ;;
        fold_result (fun v c => visit_shapes f service c v) children visited'
      else Ok visited'
  end.

(** The body of the [for operation in service.operations().values()] loop
    of [find_shapes_to_generate]. *)
Definition visit_operation (fuel : nat) (service : Service.t) (set : list string)
    (operation : Operation.t) : result (list string) :=
  set1 <-? match Operation.input operation with
           | Some input => visit_shapes fuel service input set
           | None => Ok set
           end ;;
  set2 <-? match Operation.output operation with
           | Some output => visit_shapes fuel service output set1
           | None => Ok set1
           end ;;
  match Operation.errors operation with
  | Some errors => fold_result (fun s e => visit_shapes fuel service e s) errors set2
  | None => Ok set2
  end.

(** [find_shapes_to_generate] (mod.rs 338-359). *)
Definition find_shapes_to_generate (service : Service.t) : result (list string) :=
  fold_result (fun set op => visit_operation (S (length (Service.shapes service))) service set (snd op))
    (Service.operations service) [].

(** ** The [GenerateProtocol] trait *)

(** The trait's methods; the writer argument is the [IoM] state. The
    default methods ([serialize_trait] and friends returning [None]) are
    what an implementation that does not override them carries. *)
Record GenerateProtocol := mkGenerateProtocol {
  generate_prelude : Service.t -> IoM unit;
  generate_method_signatures : Service.t -> IoM unit;
  generate_method_impls : Service.t -> IoM unit;
  serialize_trait : option string;
  deserialize_trait : option string;
  generate_serializer : string -> Shape.t -> Service.t -> option string;
  generate_deserializer : string -> Shape.t -> Service.t -> option string;
  timestamp_type : string
}.

Definition option_to_list {A} (o : option A) : list A :=
  match o with Some a => [a] | None => [] end.

Definition serde_blob_attrs : string :=
  "#[serde(" ++ nl ++
  "    deserialize_with=" ++ dq ++ "::rusoto_core::serialization::SerdeBlob::deserialize_blob" ++ dq ++ "," ++ nl ++
  "    serialize_with=" ++ dq ++ "::rusoto_core::serialization::SerdeBlob::serialize_blob" ++ dq ++ "," ++ nl ++
  "    default," ++ nl ++ ")]".

Definition serde_blob_list_attrs : string :=
  "#[serde(" ++ nl ++
  "    deserialize_with=" ++ dq ++ "::rusoto_core::serialization::SerdeBlobList::deserialize_blob_list" ++ dq ++ "," ++ nl ++
  "    serialize_with=" ++ dq ++ "::rusoto_core::serialization::SerdeBlobList::serialize_blob_list" ++ dq ++ "," ++ nl ++
  "    default," ++ nl ++ ")]".

Definition serde_rename_attr (member_name : string) : string :=
  "#[serde(rename=" ++ dq ++ member_name ++ dq ++ ")]".

Definition serde_skip_attr : string :=
  "#[serde(skip_serializing_if=" ++ dq ++ "Option::is_none" ++ dq ++ ")]".

(** The field declaration of [generate_struct_fields] (mod.rs 569-595);
    [name] is the field name from [generate_field_name]. In
    [a && b && c || d] the conjunction binds tighter, in Rust as here. *)
Definition struct_field_decl (service_name : string) (shape : Shape.t)
    (shape_name member_name name rs_type : string) : string :=
  if shape_name =? rs_type then
    if Shape.required shape member_name then "pub " ++ name ++ ": Box<" ++ rs_type ++ ">,"
    else if name =? "type" then "pub aws_" ++ name ++ ": Box<Option<" ++ rs_type ++ ">>,"
    else "pub " ++ name ++ ": Box<Option<" ++ rs_type ++ ">>,"
  else
    if (service_name =? "CodePipeline") && (shape_name =? "ActionRevision")
         && (name =? "revision_change_id") || (name =? "created") then
      "pub " ++ name ++ ": Option<" ++ rs_type ++ ">,"
    else if (service_name =? "Amazon Lex Runtime Service")
              && (shape_name =? "PostTextResponse") && (name =? "slots") then
      "pub " ++ name ++ ": Option<::std::collections::HashMap<String, Option<String>>>,"
    else if Shape.required shape member_name then
      "pub " ++ name ++ ": " ++ rs_type ++ ","
    else if name =? "type" then
      "pub aws_" ++ name ++ ": Option<" ++ rs_type ++ ">,"
    else "pub " ++ name ++ ": Option<" ++ rs_type ++ ">,".

(** [derived] of [generate_struct] (mod.rs 450-469). *)
Definition struct_derives (shape : Shape.t) (streaming serialized deserialized : bool)
    (protocol_generator : GenerateProtocol) : list string :=
  app ["Default"; "Debug"]
  (app (if negb streaming && (match streaming_members shape with [] => true | _ => false end)
        then ["Clone"; "PartialEq"] else [])
  (app (if serialized then option_to_list (serialize_trait protocol_generator) else [])
       (if deserialized then option_to_list (deserialize_trait protocol_generator) else []))).

Section Codegen.

(** [Inflector::to_snake_case] (the inflector crate). *)
Variable to_snake_case : string -> string.
(** [crate::doco::Item(docs).to_string()]: documentation formatting, out
    of the core's scope. *)
Variable doco_item : string -> string.

(** [generate_field_name] (mod.rs 99-106). *)
Definition generate_field_name (member_name : string) : string :=
  let name := to_snake_case member_name in
  if (name =? "return") || (name =? "type") || (name =? "match") then name ++ "_"
  else name.

(** The serde attributes of a member (mod.rs 527-559). *)
Definition serde_lines (service : Service.t) (shape : Shape.t)
    (member_name : string) (member : Member.t) : list string :=
  app [serde_rename_attr member_name]
  (app (match Service.shape_for_member service member with
        | Some member_shape =>
            if ShapeType.eqb (Shape.shape_type member_shape) ShapeType.Blob then
              [serde_blob_attrs]
            else if ShapeType.eqb (Shape.shape_type member_shape) ShapeType.List then
              match Shape.member member_shape with
              | Some list_element_member =>
                  match Service.shape_type_for_member service list_element_member with
                  | Some list_element_shape_type =>
                      if ShapeType.eqb list_element_shape_type ShapeType.Blob
                      then [serde_blob_list_attrs] else []
                  | None => []
                  end
              | None => []
              end
            else []
        | None => []
        end)
       (if negb (Shape.required shape member_name) then [serde_skip_attr] else [])).

(** The closure of [generate_struct_fields] applied to one member: [None]
    for a deprecated member, otherwise its lines before they are joined. *)
Definition struct_field (service : Service.t) (shape : Shape.t) (shape_name : string)
    (serde_attrs : bool) (protocol_generator : GenerateProtocol)
    (member_name : string) (member : Member.t) : result (option (list string)) :=
  match Member.deprecated member with
  | Some true => Ok None
  | _ =>
      let doc_lines := match Member.documentation member with
                       | Some docs => [doco_item docs]
                       | None => []
                       end in
      let attr_lines := if serde_attrs then serde_lines service shape member_name member
                        else [] in
      member_shape <-? unwrap "called `Option::unwrap()` on a `None` value"
                        (Service.shape_for_member service member) ;;
      rs_type <-? get_rust_type service (Member.shape member) member_shape
                   (Member.streaming member) (timestamp_type protocol_generator) ;;
      let name := generate_field_name member_name in
      Ok (Some (app doc_lines
                 (app attr_lines
                   [struct_field_decl (Service.name service) shape shape_name
                      member_name name rs_type])))
  end.

(** [generate_struct_fields] (mod.rs 509-599). *)
Definition generate_struct_fields (service : Service.t) (shape : Shape.t)
    (shape_name : string) (serde_attrs : bool) (protocol_generator : GenerateProtocol)
  : result string :=
  members <-? unwrap "called `Option::unwrap()` on a `None` value" (Shape.members shape) ;;
  fields <-? fold_result
               (fun acc p =>
                  o <-? struct_field service shape shape_name serde_attrs protocol_generator
                          (fst p) (snd p) ;;
                  Ok (app acc (option_to_list (option_map (String.concat nl) o))))
               members [] ;;
  Ok (String.concat nl fields).

(** [generate_struct] (mod.rs 438-507); the indentation inside the
    [format!] literals is left out. *)
Definition generate_struct (service : Service.t) (name : string) (shape : Shape.t)
    (streaming serialized deserialized : bool) (protocol_generator : GenerateProtocol)
  : result string :=
  let derived := struct_derives shape streaming serialized deserialized protocol_generator in
  let attributes := "#[derive(" ++ String.concat "," derived ++ ")]" in
  let test_attributes :=
    if existsb (String.eqb "Deserialize") derived
       && negb (existsb (String.eqb "Serialize") derived)
    then nl ++ "#[cfg_attr(any(test, feature = " ++ dq ++ "serialize_structs" ++ dq
            ++ "), derive(Serialize))]"
    else "" in
  match Shape.members shape with
  | None | Some [] =>
      Ok (attributes ++ test_attributes ++ nl ++ "pub struct " ++ name ++ " {}" ++ nl)
  | Some _ =>
      let need_serde_attrs :=
        existsb (fun x => (x =? "Serialize") || (x =? "Deserialize")) derived in
      struct_fields <-? generate_struct_fields service shape name need_serde_attrs
                          protocol_generator ;;
      Ok (attributes ++ test_attributes ++ nl ++ "pub struct " ++ name ++ " {" ++ nl
            ++ struct_fields ++ nl ++ "}" ++ nl)
  end.

(** [crate::commands::generate::codegen::type_filter::filter_types]
    (type_filter.rs): the serialized and deserialized type names. *)
Variable filter_types : Service.t -> list string * list string.

(** The body of the [for name in find_shapes_to_generate(service)] loop of
    [generate_types] (mod.rs 372-433); [ret tt] right after the lookup is
    the [continue]. *)
Definition generate_type (service : Service.t) (protocol_generator : GenerateProtocol)
    (serialized_types deserialized_types : list string) (name : string) : IoM unit :=
  shape <- lift (unwrap "called `Option::unwrap()` on a `None` value"
                   (Service.get_shape service name)) ;;
  if Shape.exception shape && negb (Service.name service =? "Kinesis") then ret tt
  else
    let type_name := mutate_type_name service name in
    let streaming := is_streaming_shape service name in
    let deserialized := existsb (String.eqb type_name) deserialized_types in
    let serialized := existsb (String.eqb type_name) serialized_types in
    (if ShapeType.eqb (Shape.shape_type shape) ShapeType.Structure then
       (match Shape.documentation shape with
        | Some docs => writeln (doco_item docs)
        | None => ret tt
        end) ;;;
       (if negb (type_name =? "String") then
          generated <- lift (generate_struct service type_name shape streaming
                               serialized deserialized protocol_generator) ;;
          writeln generated
        else ret tt)
     else ret tt) ;;;
    (if streaming then
       writeln ("pub type " ++ mutate_type_name_for_streaming type_name
                ++ " = ::rusoto_core::ByteStream;")
     else ret tt) ;;;
    (if deserialized then
       match generate_deserializer protocol_generator type_name shape service with
       | Some deserializer =>
           match deserialize_trait protocol_generator with
           | None => writeln deserializer
           | Some _ => panic "assertion failed: protocol_generator.deserialize_trait().is_none()"
           end
       | None => ret tt
       end
     else ret tt) ;;;
    (if serialized then
       match generate_serializer protocol_generator type_name shape service with
       | Some serializer =>
           match serialize_trait protocol_generator with
           | None => writeln serializer
           | Some _ => panic "assertion failed: protocol_generator.serialize_trait().is_none()"
           end
       | None => ret tt
       end
     else ret tt).

(** [generate_types] (mod.rs 361-436). *)
Definition generate_types (service : Service.t) (protocol_generator : GenerateProtocol)
  : IoM unit :=
  let (serialized_types, deserialized_types) := filter_types service in
  names <- lift (find_shapes_to_generate service) ;;
  iterM (generate_type service protocol_generator serialized_types deserialized_types) names.

(** [GenerateErrorTypes::generate_error_types] of the three error-type
    generators (error_types.rs). *)
Variable generate_error_types : ErrorTypesImpl -> Service.t -> IoM unit.
(** [tests::generate_tests] (tests.rs). *)
Variable generate_tests : Service.t -> IoM unit.
(** The four [GenerateProtocol] implementations. *)
Variable protocol_generator_of : ProtocolGeneratorImpl -> GenerateProtocol.

(** [generate_client] (mod.rs 156-227); the client boilerplate between the
    trait and its [impl] block is abridged to its first line. *)
Definition generate_client (service : Service.t) (protocol_generator : GenerateProtocol)
  : IoM unit :=
  writeln ("/// Trait representing the capabilities of the " ++ Service.name service
           ++ " API. " ++ Service.name service ++ " clients implement this trait." ++ nl
           ++ "pub trait " ++ Service.service_type_name service ++ " {") ;;;
  generate_method_signatures protocol_generator service ;;;
  writeln "}" ;;;
  writeln ("/// A client for the " ++ Service.name service ++ " API.") ;;;
  generate_method_impls protocol_generator service ;;;
  writeln "}".

(** The fixed preamble written by [generate] (mod.rs 120-145), abridged. *)
Definition preamble : string :=
  "// This file is generated!" ++ nl ++ "#![allow(warnings)]" ++ nl
  ++ "use rusoto_core::{Client, RusotoFuture, RusotoError};".

(** [generate] (mod.rs 109-154). *)
Definition generate (service : Service.t) (protocol_generator : GenerateProtocol)
    (error_type_generator : ErrorTypesImpl) : IoM unit :=
  writeln preamble ;;;
  generate_prelude protocol_generator service ;;;
  generate_types service protocol_generator ;;;
  generate_error_types error_type_generator service ;;;
  generate_client service protocol_generator ;;;
  generate_tests service.

(** [generate_source] (mod.rs 84-95). *)
Definition generate_source (service : Service.t) : IoM unit :=
  match select_generators (Service.protocol service) with
  | Ok (p, e) => generate service (protocol_generator_of p) e
  | Err msg => panic msg
  end.

End Codegen.

(** Modelled from the spec: the variant set of the service error type
    ([GenerateErrorTypes], error_types.rs, not in the sources): one variant
    per exception-flagged reachable shape. *)
Definition error_variant_shapes (service : Service.t) : result (list string) :=
  names <-? find_shapes_to_generate service ;;
  Ok (filter (fun n => match Service.get_shape service n with
                       | Some shape => Shape.exception shape
                       | None => false
                       end) names).

(** * Vocabulary of the properties *)

(** Each element of [l] preceded by a comma. *)
Definition comma_each (l : list string) : string :=
  fold_right (fun t acc => "," ++ t ++ acc) "" l.

(** None of the structure's members carries the streaming flag. *)
Definition no_streaming_member (shape : Shape.t) : bool :=
  match Shape.members shape with
  | Some ms => forallb (fun p => negb (Member.streaming (snd p))) ms
  | None => true
  end.

(** The base rule: capitalize the first letter, strip underscores. *)
Definition normalized_type_name (type_name : string) : string :=
  remove_underscores (capitalize_first type_name).

(** The collision overrides of [mutate_type_name] other than ["Error"],
    as (normalized name, generated name). *)
Definition collision_overrides : list (string * string) :=
  [("CancelSpotFleetRequests", "EC2CancelSpotFleetRequests");
   ("BatchStopJobRun", "GlueBatchStopJobRun");
   ("Option", "RDSOption");
   ("BatchDeleteImportDataError", "DiscoveryBatchDeleteImportDataError");
   ("CreateFleetError", "EC2CreateFleetError");
   ("BatchDescribeMergeConflictsError", "CodeCommitBatchDescribeMergeConflictsError");
   ("BatchGetCommitsError", "CodeCommitBatchGetCommitsError")].

(** The string holds no underscore. *)
Fixpoint underscore_free (s : string) : bool :=
  match s with
  | EmptyString => true
  | String c rest => negb (Ascii.eqb c "_") && underscore_free rest
  end.

(** [member.deprecated == Some(true)]. *)
Definition is_deprecated (m : Member.t) : bool :=
  match Member.deprecated m with Some true => true | _ => false end.

(** The shape with its deprecated members left out. *)
Definition without_deprecated (s : Shape.t) : Shape.t :=
  Shape.mk (Shape.shape_type s)
    (option_map (filter (fun p => negb (is_deprecated (snd p)))) (Shape.members s))
    (Shape.member s) (Shape.key s) (Shape.value s) (Shape.required_names s)
    (Shape.exception_flag s) (Shape.documentation s).

Definition appends {A} (c : IoM A) : Prop :=
  forall w, exists d, snd (c w) = app w d.

(** The seeds of the traversal: each operation's input, output and
    declared errors, operations in key order. *)
Definition operation_seeds (operation : Operation.t) : list string :=
  app (option_to_list (Operation.input operation))
      (app (option_to_list (Operation.output operation))
           (match Operation.errors operation with Some es => es | None => [] end)).

Definition service_seeds (service : Service.t) : list string :=
  flat_map (fun p => operation_seeds (snd p)) (Service.operations service).

(** The shape names transitively reachable from the seeds through list
    elements, map keys and values, and structure members. *)
Inductive reachable (service : Service.t) : string -> Prop :=
| reach_seed n :
    In n (service_seeds service) -> reachable service n
| reach_list_element n shape m :
    reachable service n -> Service.get_shape service n = Some shape ->
    Shape.shape_type shape = ShapeType.List -> Shape.member shape = Some m ->
    reachable service (Member.shape m)
| reach_map_key n shape m :
    reachable service n -> Service.get_shape service n = Some shape ->
    Shape.shape_type shape = ShapeType.Map -> Shape.key shape = Some m ->
    reachable service (Member.shape m)
| reach_map_value n shape m :
    reachable service n -> Service.get_shape service n = Some shape ->
    Shape.shape_type shape = ShapeType.Map -> Shape.value shape = Some m ->
    reachable service (Member.shape m)
| reach_struct_member n shape ms k m :
    reachable service n -> Service.get_shape service n = Some shape ->
    Shape.shape_type shape = ShapeType.Structure -> Shape.members shape = Some ms ->
    In (k, m) ms -> reachable service (Member.shape m).

Definition resolves (service : Service.t) (n : string) : bool :=
  match Service.get_shape service n with Some _ => true | None => false end.

(** Every shape reference of the service resolves: the seeds, and the
    element, key, value and member references of every shape. *)
Definition refs_resolve (service : Service.t) : bool :=
  forallb (resolves service) (service_seeds service)
  && forallb (fun p => match shape_children (snd p) with
                       | Ok cs => forallb (resolves service) cs
                       | Err _ => false
                       end) (Service.shapes service).

Definition keys (service : Service.t) : list string := map fst (Service.shapes service).

(** One step of the traversal. *)
Definition child (service : Service.t) (p c : string) : Prop :=
  exists shape cs, Service.get_shape service p = Some shape
                   /\ shape_children shape = Ok cs /\ In c cs.

Definition lt := String_as_OT.lt.

Definition visited_ok (service : Service.t) (V : list string) : Prop :=
  StronglySorted lt V /\ incl V (keys service).

(** What one call of [visit_shapes] guarantees, given enough fuel: the
    name and everything newly added are reachable from it, and every newly
    added name has all its children in the result. *)
Definition VisitSpec (service : Service.t) (fuel : nat) : Prop :=
  forall n V,
    resolves service n = true -> visited_ok service V ->
    length (Service.shapes service) < length V + fuel ->
    exists V',
      visit_shapes fuel service n V = Ok V'
      /\ visited_ok service V' /\ incl V V' /\ In n V'
      /\ (forall y, In y V' -> In y V \/ clos_refl_trans _ (child service) n y)
      /\ (forall y, In y V' -> ~ In y V -> forall c, child service y c -> In c V').

(** A name newly added by a successful traversal resolves, and its
    children are in [W]. *)
Definition new_ok (service : Service.t) (W : list string) (y : string) : Prop :=
  exists shape cs, Service.get_shape service y = Some shape
                   /\ shape_children shape = Ok cs /\ incl cs W.

(** What a successful call of [visit_shapes] guarantees, whatever the
    service: the result is sorted, holds the name and the input set, and
    every name it adds resolves with all its children in the result. *)
Definition visit_ok_post (service : Service.t) (n : string) (V V' : list string) : Prop :=
  StronglySorted lt V' /\ In n V' /\ incl V V'
  /\ (forall y, In y V' -> ~ In y V -> new_ok service V' y).

(** * Concrete services *)

Module Fixtures.
Definition prim (t : ShapeType.t) : Shape.t :=
  Shape.mk t None None None None None None None.
Definition mem (s : string) : Member.t := Member.mk s None None None.
Definition structure (ms : list (string * Member.t)) (req : list string) : Shape.t :=
  Shape.mk ShapeType.Structure (Some ms) None None None (Some req) None None.

(** Stand-in for [to_snake_case] on names that are already lower-case
    single words (["type"], ["created"], ["other"], ["w"]), which the
    inflector crate leaves as they are. *)
Definition snake_lower (s : string) : string := s.
Definition doc_plain (s : string) : string := s.

(** A protocol deriving serde's traits, with epoch-second timestamps. *)
Definition serde_protocol : GenerateProtocol :=
  mkGenerateProtocol (fun _ => ret tt) (fun _ => ret tt) (fun _ => ret tt)
    (Some "Serialize") (Some "Deserialize") (fun _ _ _ => None) (fun _ _ _ => None) "f64".

(** [Widget { created: String (required), type: String (required) }] in
    service ["Foo"]. *)
Definition widget : Shape.t :=
  structure [("created", mem "Str"); ("type", mem "Str")] ["created"; "type"].
(** [Tree { next: Tree (optional) }]: a direct self-reference. *)
Definition tree : Shape.t := structure [("next", mem "Tree")] [].
Definition foo_service : Service.t :=
  Service.mk "Foo" "rest-json" "Foo"
    [("Str", prim ShapeType.String); ("Tree", tree); ("Widget", widget)]
    [("GetWidget", Operation.mk None (Some "Widget") None)].

(** [Node { other: Other (required) }] and [Other { w: Node (required) }]:
    a cycle through two structures. *)
Definition node : Shape.t := structure [("other", mem "Other")] ["other"].
Definition other : Shape.t := structure [("w", mem "Node")] ["w"].
Definition cyclic_service : Service.t :=
  Service.mk "Foo" "ec2" "Foo"
    [("Node", node); ("Other", other)]
    [("GetNode", Operation.mk (Some "Node") (Some "Other") None)].

(** An operation whose input names no shape. *)
Definition dangling_service : Service.t :=
  Service.mk "Foo" "json" "Foo" []
    [("Get", Operation.mk (Some "Missing") None None)].

(** A Kinesis exception structure, and one whose name is ["String"]. *)
Definition not_found : Shape.t :=
  Shape.mk ShapeType.Structure (Some [("message", mem "Str")]) None None None None
    (Some true) None.
Definition string_exception : Shape.t :=
  Shape.mk ShapeType.Structure None None None None None (Some true) None.
Definition kinesis_service : Service.t :=
  Service.mk "Kinesis" "json" "Kinesis"
    [("ResourceNotFoundException", not_found); ("Str", prim ShapeType.String);
     ("String", string_exception)]
    [("Put", Operation.mk (Some "String") None (Some ["ResourceNotFoundException"]))].
(** A service whose protocol tag is none of the supported five. *)
Definition unknown_protocol_service : Service.t :=
  Service.mk "Foo" "smithy-rpc-v2-cbor" "Foo" [] [].

(** A protocol deriving no serialization trait (as query and rest-xml
    do), with string timestamps. *)
Definition plain_protocol : GenerateProtocol :=
  mkGenerateProtocol (fun _ => ret tt) (fun _ => ret tt) (fun _ => ret tt)
    None None (fun _ _ _ => None) (fun _ _ _ => None) "String".

(** [GetObjectOutput { Body: body (streaming) }] with a lower-case blob
    shape name. *)
Definition body_member : Member.t := Member.mk "body" None None (Some true).
Definition get_object_output : Shape.t := structure [("Body", body_member)] [].
Definition streaming_service : Service.t :=
  Service.mk "Foo" "rest-xml" "Foo"
    [("GetObjectOutput", get_object_output); ("body", prim ShapeType.Blob)] [].

(** A deprecated member whose shape is missing, beside a kept one; and a
    kept member whose shape is missing. *)
Definition legacy : Shape.t :=
  structure [("old", Member.mk "Missing" (Some true) None None); ("w", mem "Str")] ["w"].
Definition legacy_broken : Shape.t := structure [("old", mem "Missing")] [].

End Fixtures.
Import Fixtures.

(** * Properties *)

(** ** String lemmas *)

Lemma string_append_assoc (a b c : string) : (a ++ b) ++ c = a ++ (b ++ c).
Proof. induction a as [|x a IH]; simpl; [reflexivity | now rewrite IH]. Qed.

Lemma string_length_append (a b : string) :
  String.length (a ++ b) = String.length a + String.length b.
Proof. induction a as [|x a IH]; simpl; [reflexivity | now rewrite IH]. Qed.

Lemma string_append_nil (a : string) : a ++ "" = a.
Proof. induction a as [|x a IH]; simpl; [reflexivity | now rewrite IH]. Qed.


Lemma concat_comma (x : string) (l : list string) :
  String.concat "," (x :: l) = x ++ comma_each l.
Proof.
  revert x; induction l as [|y l IH]; intro x.
  - simpl. now rewrite string_append_nil.
  - change (String.concat "," (x :: y :: l)) with (x ++ "," ++ String.concat "," (y :: l)).
    rewrite IH. reflexivity.
Qed.

Lemma comma_each_app (l1 l2 : list string) :
  comma_each (app l1 l2) = comma_each l1 ++ comma_each l2.
Proof.
  induction l1 as [|y l1 IH]; simpl; [reflexivity|].
  rewrite IH. now rewrite <- string_append_assoc.
Qed.

(** ** Streaming *)


Lemma streaming_members_nil_iff (shape : Shape.t) :
  (match streaming_members shape with [] => true | _ => false end)
  = no_streaming_member shape.
Proof.
  unfold streaming_members, no_streaming_member.
  destruct (Shape.members shape) as [ms|]; [|reflexivity].
  induction ms as [|[k m] ms IH]; simpl; [reflexivity|].
  destruct (Member.streaming m); simpl; [reflexivity | exact IH].
Qed.

(** C10: [generate_struct] derives [Clone] and [PartialEq] exactly when the
    structure is not streaming and none of its members is streaming;
    otherwise its derive attribute lists only [Default] and [Debug] followed
    by the protocol's (de)serialization traits. *)
Theorem generate_struct_derives_clone_iff_not_streaming
    to_snake_case doco_item service name shape streaming serialized deserialized
    protocol_generator s :
  generate_struct to_snake_case doco_item service name shape streaming serialized
    deserialized protocol_generator = Ok s ->
  exists rest,
    s = "#[derive(Default,Debug"
        ++ (if negb streaming && no_streaming_member shape then ",Clone,PartialEq" else "")
        ++ comma_each
             (app (if serialized then option_to_list (serialize_trait protocol_generator) else [])
                  (if deserialized then option_to_list (deserialize_trait protocol_generator) else []))
        ++ ")]" ++ rest.
Proof.
  intro H.
  assert (Hattr : String.concat ","
                     (struct_derives shape streaming serialized deserialized protocol_generator)
                  = "Default,Debug"
                    ++ (if negb streaming && no_streaming_member shape then ",Clone,PartialEq" else "")
                    ++ comma_each
                         (app (if serialized then option_to_list (serialize_trait protocol_generator) else [])
                              (if deserialized then option_to_list (deserialize_trait protocol_generator) else []))).
  { unfold struct_derives. rewrite streaming_members_nil_iff.
    cbn [app]. rewrite concat_comma. simpl.
    destruct (negb streaming && no_streaming_member shape); reflexivity. }
  unfold generate_struct in H. cbv zeta in H. rewrite Hattr in H.
  destruct (Shape.members shape) as [[|m ms]|] eqn:Hm.
  - injection H as <-. eexists. rewrite !string_append_assoc. reflexivity.
  - destruct (generate_struct_fields _ _ _ _ _ _ _) as [f|e]; simpl in H; [|discriminate].
    injection H as <-. eexists. rewrite !string_append_assoc. reflexivity.
  - injection H as <-. eexists. rewrite !string_append_assoc. reflexivity.
Qed.

(** C8: with the streaming flag set, [get_rust_type] returns the streaming
    alias name ["Streaming" ++ shape_name], whatever the shape's kind. *)
Theorem get_rust_type_streaming service shape_name shape for_timestamps :
  get_rust_type service shape_name shape true for_timestamps
  = Ok ("Streaming" ++ shape_name).
Proof. reflexivity. Qed.

(** ** Type names *)


Ltac destruct_ifs :=
  repeat match goal with
         | |- context [if ?b then _ else _] => destruct b
         end.

(** C3 (as amended): [mutate_type_name] resolves a normalized ["Error"] to
    the service's type name followed by ["Error"], resolves each other
    override by the normalized name alone, in every service, and passes
    every other name through the base rule; the service enters only
    through its type name. *)
Theorem mutate_type_name_override_table service type_name :
  mutate_type_name service type_name =
  (let n := normalized_type_name type_name in
   if n =? "Error" then Service.service_type_name service ++ "Error"
   else match Service.assoc_lookup n collision_overrides with
        | Some v => v
        | None => n
        end).
Proof.
  unfold mutate_type_name, normalized_type_name, collision_overrides. cbn zeta.
  cbn [Service.assoc_lookup].
  destruct_ifs; reflexivity.
Qed.

(** ** Protocol dispatch *)

(** C5 (as amended): the ["ec2"] tag runs [generate] with the same
    [QueryGenerator] and [XmlErrorTypes] as ["query"]; the other tags select
    [JsonGenerator], [RestJsonGenerator] and [RestXmlGenerator]. *)
Theorem generate_source_ec2_uses_query_generator
    to_snake_case doco_item filter_types generate_error_types generate_tests
    protocol_generator_of service w :
  Service.protocol service = "ec2" ->
  generate_source to_snake_case doco_item filter_types generate_error_types generate_tests
    protocol_generator_of service w
  = generate to_snake_case doco_item filter_types generate_error_types generate_tests service
      (protocol_generator_of QueryGenerator) XmlErrorTypes w
  /\ select_generators "query" = Ok (QueryGenerator, XmlErrorTypes)
  /\ select_generators "json" = Ok (JsonGenerator, JsonErrorTypes)
  /\ select_generators "rest-json" = Ok (RestJsonGenerator, RestJsonErrorTypes)
  /\ select_generators "rest-xml" = Ok (RestXmlGenerator, XmlErrorTypes).
Proof.
  intro Hp. unfold generate_source. rewrite Hp.
  repeat split; reflexivity.
Qed.

(** C9: for any protocol tag outside ["json"], ["query"], ["ec2"],
    ["rest-json"] and ["rest-xml"], [generate_source] panics before writing
    anything. *)
Theorem generate_source_unknown_protocol_panics
    to_snake_case doco_item filter_types generate_error_types generate_tests
    protocol_generator_of service w :
  ~ In (Service.protocol service) ["json"; "query"; "ec2"; "rest-json"; "rest-xml"] ->
  generate_source to_snake_case doco_item filter_types generate_error_types generate_tests
    protocol_generator_of service w
  = (Err ("Unknown protocol " ++ Service.protocol service), w).
Proof.
  intro Hn. unfold generate_source, select_generators.
  destruct (String.eqb_spec (Service.protocol service) "json") as [E|_];
    [exfalso; apply Hn; rewrite E; simpl; tauto|].
  destruct (String.eqb_spec (Service.protocol service) "query") as [E|_];
    [exfalso; apply Hn; rewrite E; simpl; tauto|].
  destruct (String.eqb_spec (Service.protocol service) "ec2") as [E|_];
    [exfalso; apply Hn; rewrite E; simpl; tauto|].
  destruct (String.eqb_spec (Service.protocol service) "rest-json") as [E|_];
    [exfalso; apply Hn; rewrite E; simpl; tauto|].
  destruct (String.eqb_spec (Service.protocol service) "rest-xml") as [E|_];
    [exfalso; apply Hn; rewrite E; simpl; tauto|].
  reflexivity.
Qed.

(** ** Struct fields *)

Lemma generate_field_name_not_type to_snake_case member_name :
  generate_field_name to_snake_case member_name <> "type".
Proof.
  unfold generate_field_name.
  destruct (String.eqb_spec (to_snake_case member_name) "return") as [E|_];
    [rewrite E; discriminate|].
  destruct (String.eqb_spec (to_snake_case member_name) "type") as [E|N];
    [rewrite E; discriminate|].
  destruct (String.eqb_spec (to_snake_case member_name) "match") as [E|_];
    [rewrite E; discriminate|].
  exact N.
Qed.

Lemma eqb_type_false_field to_snake_case member_name :
  (generate_field_name to_snake_case member_name =? "type") = false.
Proof. apply String.eqb_neq, generate_field_name_not_type. Qed.

(** The lines [struct_field] produces for a kept member: its
    documentation, its serde attributes, then its declaration. *)
Lemma struct_field_lines to_snake_case doco_item service shape shape_name serde_attrs
    protocol_generator member_name member lines :
  struct_field to_snake_case doco_item service shape shape_name serde_attrs
    protocol_generator member_name member = Ok (Some lines) ->
  exists member_shape rs_type,
    Service.shape_for_member service member = Some member_shape
    /\ get_rust_type service (Member.shape member) member_shape (Member.streaming member)
         (timestamp_type protocol_generator) = Ok rs_type
    /\ lines = app (match Member.documentation member with
                    | Some docs => [doco_item docs]
                    | None => []
                    end)
               (app (if serde_attrs then serde_lines service shape member_name member else [])
                  [struct_field_decl (Service.name service) shape shape_name member_name
                     (generate_field_name to_snake_case member_name) rs_type]).
Proof.
  unfold struct_field. intro H.
  destruct (Member.deprecated member) as [[|]|]; [discriminate| |];
  (destruct (Service.shape_for_member service member) as [msh|]; simpl in H; [|discriminate];
   destruct (get_rust_type _ _ _ _ _) as [rs|] eqn:Hr; simpl in H; [|discriminate];
   injection H as <-; exists msh, rs; repeat split; assumption).
Qed.

Lemma list_app_single_inj {A} (p1 p2 : list A) (x1 x2 : A) :
  app p1 [x1] = app p2 [x2] -> p1 = p2 /\ x1 = x2.
Proof. intro H. apply app_inj_tail in H. exact H. Qed.

(** C2 (as amended): a member whose snake-cased name is ["return"],
    ["type"] or ["match"] becomes the field named by that word with a fixed
    underscore suffix ([type_], not a prefix); with serde attributes the
    rename attribute carries the original member name verbatim. *)
Theorem struct_field_type_escaped to_snake_case doco_item service shape shape_name
    serde_attrs protocol_generator member_name member lines :
  In (to_snake_case member_name) ["return"; "type"; "match"] ->
  struct_field to_snake_case doco_item service shape shape_name serde_attrs
    protocol_generator member_name member = Ok (Some lines) ->
  exists pre tail,
    lines = app pre ["pub " ++ to_snake_case member_name ++ "_: " ++ tail]
    /\ (serde_attrs = true -> In (serde_rename_attr member_name) pre).
Proof.
  intros Hs H.
  destruct (struct_field_lines _ _ _ _ _ _ _ _ _ _ H) as (msh & rs & _ & _ & ->).
  assert (Hd : exists tail,
             struct_field_decl (Service.name service) shape shape_name member_name
               (generate_field_name to_snake_case member_name) rs
             = "pub " ++ to_snake_case member_name ++ "_: " ++ tail).
  { unfold generate_field_name.
    destruct Hs as [Hs|[Hs|[Hs|[]]]]; rewrite <- Hs; unfold struct_field_decl; simpl;
      destruct_ifs; eexists; reflexivity. }
  destruct Hd as [tail Hd]. rewrite Hd.
  eexists _, tail. split.
  - rewrite app_assoc. reflexivity.
  - intro Hse. rewrite Hse. apply in_or_app. right. apply in_or_app. left.
    unfold serde_lines. left. reflexivity.
Qed.

(** C4 (as amended): a field is boxed exactly when its Rust type is the
    enclosing struct's own name: [Box<T>] when required, [Box<Option<T>>]
    otherwise; every other field is [T], [Option<T>] or the Lex override,
    with no box. *)
Theorem struct_field_box_only_self_reference to_snake_case doco_item service shape
    shape_name serde_attrs protocol_generator member_name member lines :
  struct_field to_snake_case doco_item service shape shape_name serde_attrs
    protocol_generator member_name member = Ok (Some lines) ->
  let name := generate_field_name to_snake_case member_name in
  exists pre member_shape rs_type,
    Service.shape_for_member service member = Some member_shape
    /\ get_rust_type service (Member.shape member) member_shape (Member.streaming member)
         (timestamp_type protocol_generator) = Ok rs_type
    /\ exists decl, lines = app pre [decl]
    /\ (shape_name = rs_type ->
        decl = if Shape.required shape member_name
               then "pub " ++ name ++ ": Box<" ++ rs_type ++ ">,"
               else "pub " ++ name ++ ": Box<Option<" ++ rs_type ++ ">>,")
    /\ (shape_name <> rs_type ->
        decl = "pub " ++ name ++ ": " ++ rs_type ++ ","
        \/ decl = "pub " ++ name ++ ": Option<" ++ rs_type ++ ">,"
        \/ decl = "pub " ++ name
                  ++ ": Option<::std::collections::HashMap<String, Option<String>>>,").
Proof.
  intros H name.
  destruct (struct_field_lines _ _ _ _ _ _ _ _ _ _ H) as (msh & rs & Hm & Hr & ->).
  exists (app (match Member.documentation member with
               | Some docs => [doco_item docs]
               | None => []
               end)
              (if serde_attrs then serde_lines service shape member_name member else [])),
         msh, rs.
  split; [exact Hm|]. split; [exact Hr|].
  eexists. split; [rewrite app_assoc; reflexivity|].
  pose proof (eqb_type_false_field to_snake_case member_name) as Ht.
  fold name in Ht.
  unfold struct_field_decl. fold name. rewrite Ht.
  split.
  - intro E. rewrite <- E, String.eqb_refl. reflexivity.
  - intro N. apply String.eqb_neq in N. rewrite N.
    destruct_ifs; tauto.
Qed.

(** ** Writing only appends *)


Lemma appends_ret {A} (a : A) : appends (ret a).
Proof. intro w. exists []. simpl. now rewrite app_nil_r. Qed.

Lemma appends_writeln s : appends (writeln s).
Proof. intro w. exists [s]. reflexivity. Qed.

Lemma appends_panic {A} m : appends (@panic A m).
Proof. intro w. exists []. simpl. now rewrite app_nil_r. Qed.

Lemma appends_lift {A} (r : result A) : appends (lift r).
Proof. intro w. exists []. destruct r; simpl; now rewrite app_nil_r. Qed.

Lemma appends_bind {A B} (c : IoM A) (k : A -> IoM B) :
  appends c -> (forall a, appends (k a)) -> appends (bind c k).
Proof.
  intros Hc Hk w. unfold bind.
  destruct (Hc w) as [d1 E1].
  destruct (c w) as [[a|m] w'] eqn:Ec; simpl in E1; subst w'.
  - destruct (Hk a (app w d1)) as [d2 E2]. exists (app d1 d2).
    rewrite E2. now rewrite app_assoc.
  - exists d1. reflexivity.
Qed.

Ltac appends_tac :=
  repeat match goal with
         | |- appends (bind _ _) => apply appends_bind; [|intro]
         | |- appends (ret _) => apply appends_ret
         | |- appends (writeln _) => apply appends_writeln
         | |- appends (panic _) => apply appends_panic
         | |- appends (lift _) => apply appends_lift
         | |- appends (if ?b then _ else _) => destruct b
         | |- appends (match ?o with _ => _ end) => destruct o
         end.

Lemma bind_lift_Ok {A B} (a : A) (k : A -> IoM B) w : bind (lift (Ok a)) k w = k a w.
Proof. reflexivity. Qed.

Lemma bind_ret {A B} (a : A) (k : A -> IoM B) w : bind (ret a) k w = k a w.
Proof. reflexivity. Qed.

Lemma bind_writeln {B} s (k : unit -> IoM B) w : bind (writeln s) k w = k tt (app w [s]).
Proof. reflexivity. Qed.

Lemma bind_assoc {A B C} (c : IoM A) (k1 : A -> IoM B) (k2 : B -> IoM C) w :
  bind (bind c k1) k2 w = bind c (fun a => bind (k1 a) k2) w.
Proof. unfold bind. destruct (c w) as [[a|m] w']; reflexivity. Qed.

(** ** Exception shapes *)

(** C7 (as amended): in a service other than ["Kinesis"] the loop body of
    [generate_types] writes nothing for an exception-flagged shape; in
    ["Kinesis"] an exception-flagged structure whose type name is not
    ["String"] gets its generated struct written, and a reachable one is
    also a variant of the service error type. *)
Theorem generate_type_exception_shapes to_snake_case doco_item service
    protocol_generator serialized_types deserialized_types name shape :
  Service.get_shape service name = Some shape ->
  Shape.exception shape = true ->
  (Service.name service <> "Kinesis" ->
   forall w, generate_type to_snake_case doco_item service protocol_generator
               serialized_types deserialized_types name w = (Ok tt, w))
  /\ (Service.name service = "Kinesis" ->
      Shape.shape_type shape = ShapeType.Structure ->
      mutate_type_name service name <> "String" ->
      (forall s w,
         generate_struct to_snake_case doco_item service (mutate_type_name service name) shape
           (is_streaming_shape service name)
           (existsb (String.eqb (mutate_type_name service name)) serialized_types)
           (existsb (String.eqb (mutate_type_name service name)) deserialized_types)
           protocol_generator = Ok s ->
         In s (snd (generate_type to_snake_case doco_item service protocol_generator
                      serialized_types deserialized_types name w)))
      /\ (forall names, find_shapes_to_generate service = Ok names -> In name names ->
          exists variants, error_variant_shapes service = Ok variants /\ In name variants)).
Proof.
  intros Hg He. split.
  - intros Hk w. unfold generate_type. rewrite Hg. cbn [unwrap].
    rewrite bind_lift_Ok. rewrite He. apply String.eqb_neq in Hk. rewrite Hk.
    reflexivity.
  - intros Hk Hst Hs. split.
    + intros s w Hgen. unfold generate_type. rewrite Hg. cbn [unwrap].
      rewrite bind_lift_Ok. rewrite He, Hk, String.eqb_refl. cbn [andb negb].
      cbv zeta. rewrite Hst.
      change (ShapeType.eqb ShapeType.Structure ShapeType.Structure) with true.
      apply String.eqb_neq in Hs. rewrite Hs. cbn [negb].
      set (rest := fun _ : unit => bind (if is_streaming_shape service name then _ else _) _).
      assert (Hr : forall u, appends (rest u)) by (intro u; unfold rest; appends_tac).
      rewrite bind_assoc.
      assert (Hdoc : exists w1, forall (k : unit -> IoM unit),
                 bind (match Shape.documentation shape with
                       | Some docs => writeln (doco_item docs)
                       | None => ret tt
                       end) k w = k tt w1).
      { destruct (Shape.documentation shape).
        - eexists. intro k. apply bind_writeln.
        - eexists. intro k. apply bind_ret. }
      destruct Hdoc as [w1 Hdoc]. rewrite Hdoc.
      rewrite bind_assoc. rewrite Hgen, bind_lift_Ok, bind_writeln.
      destruct (Hr tt (app w1 [s])) as [d Ed2].
      rewrite Ed2. apply in_or_app. left. apply in_or_app. right. left. reflexivity.
    + intros names Hf Hin. unfold error_variant_shapes. rewrite Hf. simpl.
      eexists. split; [reflexivity|].
      apply filter_In. rewrite Hg. split; assumption.
Qed.

(** ** Reachability *)


Lemma compare_lt x y : String.compare x y = Lt -> lt x y.
Proof. apply String_as_OT.cmp_lt. Qed.

Lemma compare_gt x y : String.compare x y = Gt -> lt y x.
Proof.
  intro H. apply String_as_OT.cmp_lt. unfold String_as_OT.cmp.
  rewrite String.compare_antisym, H. reflexivity.
Qed.

Lemma lt_irrefl x : ~ lt x x.
Proof. intro H. apply (String_as_OT.lt_not_eq x x H). reflexivity. Qed.

Lemma lt_trans x y z : lt x y -> lt y z -> lt x z.
Proof. apply String_as_OT.lt_trans. Qed.

Lemma btree_insert_spec x s :
  StronglySorted lt s ->
  let (fresh, s') := btree_insert x s in
  StronglySorted lt s'
  /\ (forall y, In y s' <-> y = x \/ In y s)
  /\ (if fresh then ~ In x s /\ length s' = S (length s) else s' = s).
Proof.
  induction s as [|y s IH]; intro Hs.
  - simpl. split; [repeat constructor|]. split; [simpl; intuition congruence|]. split; [tauto|reflexivity].
  - simpl. inversion Hs as [|? ? Hs' Hy]; subst.
    destruct (String.compare x y) eqn:C.
    + apply String.compare_eq_iff in C. subst y.
      split; [exact Hs|]. split; [simpl; intuition congruence | reflexivity].
    + apply compare_lt in C.
      split.
      * constructor; [exact Hs|]. constructor; [exact C|].
        eapply Forall_impl; [|exact Hy]. intros z Hz. eapply lt_trans; eassumption.
      * split; [simpl; intuition congruence|]. split; [|reflexivity].
        intros [E|I]; [subst; exact (lt_irrefl _ C)|].
        rewrite Forall_forall in Hy. apply (lt_irrefl x). eapply lt_trans; [exact C|].
        exact (Hy x I).
    + apply compare_gt in C.
      specialize (IH Hs').
      destruct (btree_insert x s) as [fresh s''].
      destruct IH as (Hso & Hin & Hfr).
      split; [|split].
      * constructor; [exact Hso|]. rewrite Forall_forall in *. intros z Hz.
        apply Hin in Hz as [->|Hz]; [exact C | exact (Hy z Hz)].
      * intro z. simpl. rewrite Hin. tauto.
      * destruct fresh.
        -- destruct Hfr as [Hn Hl]. split; [|simpl; now rewrite Hl].
           intros [E|I]; [subst; exact (lt_irrefl _ C)| exact (Hn I)].
        -- now subst.
Qed.

Lemma strongly_sorted_nodup l : StronglySorted lt l -> NoDup l.
Proof.
  induction 1 as [|a l Hs IH Hf]; constructor; [|exact IH].
  intro I. rewrite Forall_forall in Hf. exact (lt_irrefl a (Hf a I)).
Qed.

Lemma assoc_lookup_in {A} k (l : list (string * A)) a :
  Service.assoc_lookup k l = Some a -> In (k, a) l.
Proof.
  induction l as [|[k' a'] l IH]; simpl; [discriminate|].
  destruct (String.eqb_spec k k') as [->|_]; [intro H; injection H as ->; now left|].
  intro H; right; exact (IH H).
Qed.

Lemma get_shape_in_keys service n shape :
  Service.get_shape service n = Some shape -> In n (keys service).
Proof.
  intro H. apply assoc_lookup_in in H. unfold keys.
  apply (in_map fst) in H. exact H.
Qed.


Lemma visited_length service V :
  visited_ok service V -> length V <= length (Service.shapes service).
Proof.
  intros [Hs Hi]. apply strongly_sorted_nodup in Hs.
  pose proof (NoDup_incl_length Hs Hi) as H. unfold keys in H.
  now rewrite length_map in H.
Qed.

Lemma visited_grows service V V' :
  visited_ok service V -> incl V V' -> length V <= length V'.
Proof. intros [Hs _] Hi. exact (NoDup_incl_length (strongly_sorted_nodup _ Hs) Hi). Qed.

Lemma refs_resolve_children service n shape :
  refs_resolve service = true -> Service.get_shape service n = Some shape ->
  exists cs, shape_children shape = Ok cs /\ forallb (resolves service) cs = true.
Proof.
  intros Hr Hg. apply andb_prop in Hr as [_ Hr].
  apply assoc_lookup_in in Hg.
  rewrite forallb_forall in Hr. specialize (Hr _ Hg). simpl in Hr.
  destruct (shape_children shape) as [cs|]; [|discriminate].
  exists cs. split; [reflexivity | exact Hr].
Qed.


Lemma visit_loop_spec service fuel :
  VisitSpec service fuel ->
  forall cs V,
    forallb (resolves service) cs = true -> visited_ok service V ->
    length (Service.shapes service) < length V + fuel ->
    exists V',
      fold_result (fun v c => visit_shapes fuel service c v) cs V = Ok V'
      /\ visited_ok service V' /\ incl V V' /\ (forall c, In c cs -> In c V')
      /\ (forall y, In y V' -> In y V
                               \/ exists c, In c cs /\ clos_refl_trans _ (child service) c y)
      /\ (forall y, In y V' -> ~ In y V -> forall c, child service y c -> In c V').
Proof.
  intros Hv cs. induction cs as [|c cs IH]; intros V Hr HV Hlen.
  - exists V. repeat split; try tauto; try apply HV.
    + apply incl_refl.
    + intros c [].
  - simpl in Hr. apply andb_prop in Hr as [Hc Hr].
    destruct (Hv c V Hc HV Hlen) as (V2 & E2 & HV2 & Hi2 & Hn2 & Hs2 & Hc2).
    assert (Hlen2 : length (Service.shapes service) < length V2 + fuel).
    { pose proof (visited_grows _ _ _ HV Hi2). lia. }
    destruct (IH V2 Hr HV2 Hlen2) as (V3 & E3 & HV3 & Hi3 & Hn3 & Hs3 & Hc3).
    exists V3. simpl. rewrite E2. split; [exact E3|].
    split; [exact HV3|]. split; [exact (incl_tran Hi2 Hi3)|]. split.
    { intros c' [<-|I]; [exact (Hi3 _ Hn2) | exact (Hn3 _ I)]. }
    split.
    + intros y Iy. destruct (Hs3 y Iy) as [I2|(c' & Ic' & R)].
      * destruct (Hs2 y I2) as [I|R]; [now left|]. right. exists c. split; [now left|exact R].
      * right. exists c'. split; [now right|exact R].
    + intros y Iy Ny c' Hch. destruct (in_dec String.string_dec y V2) as [I2|N2].
      * exact (Hi3 _ (Hc2 y I2 Ny c' Hch)).
      * exact (Hc3 y Iy N2 c' Hch).
Qed.

Lemma visit_shapes_spec service :
  refs_resolve service = true -> forall fuel, VisitSpec service fuel.
Proof.
  intros Hr fuel. induction fuel as [|f IH]; intros n V Hn HV Hlen.
  - pose proof (visited_length _ _ HV). lia.
  - unfold resolves in Hn.
    destruct (Service.get_shape service n) as [shape|] eqn:Hg; [|discriminate].
    simpl. rewrite Hg. simpl.
    pose proof (btree_insert_spec n V (proj1 HV)) as Hins.
    destruct (btree_insert n V) as [fresh V1].
    destruct Hins as (Hso1 & Hin1 & Hfr).
    destruct fresh.
    + destruct Hfr as [Hnn Hl1].
      destruct (refs_resolve_children _ _ _ Hr Hg) as (cs & Hcs & Hrc).
      rewrite Hcs. simpl.
      assert (HV1 : visited_ok service V1).
      { split; [exact Hso1|]. intros y Iy. apply Hin1 in Iy as [->|Iy].
        - exact (get_shape_in_keys _ _ _ Hg).
        - exact (proj2 HV y Iy). }
      assert (Hlen1 : length (Service.shapes service) < length V1 + f) by lia.
      destruct (visit_loop_spec service f IH cs V1 Hrc HV1 Hlen1)
        as (V' & E & HV' & Hi & Hnc & Hs & Hc).
      exists V'. split; [exact E|]. split; [exact HV'|].
      split; [intros y Iy; apply Hi, Hin1; now right|].
      split; [apply Hi, Hin1; now left|]. split.
      * intros y Iy. destruct (Hs y Iy) as [I1|(c & Ic & R)].
        -- apply Hin1 in I1 as [->|I]; [right; apply rt_refl | now left].
        -- right. eapply rt_trans; [apply rt_step|exact R].
           exists shape, cs. split; [exact Hg|]. split; [exact Hcs|exact Ic].
      * intros y Iy Ny c Hch. destruct (in_dec String.string_dec y V1) as [I1|N1].
        -- apply Hin1 in I1 as [->|I]; [|contradiction].
           destruct Hch as (shape' & cs' & Hg' & Hcs' & Ic).
           rewrite Hg in Hg'. injection Hg' as <-. rewrite Hcs in Hcs'.
           injection Hcs' as <-. exact (Hnc c Ic).
        -- exact (Hc y Iy N1 c Hch).
    + subst V1. exists V. split; [reflexivity|]. split; [exact HV|].
      split; [apply incl_refl|]. split; [apply Hin1; now left|].
      split; [intros y Iy; now left|]. intros y Iy Ny. contradiction.
Qed.

Lemma fold_result_app {A B} (g : B -> A -> result B) l1 l2 b :
  fold_result g (app l1 l2) b = rbind (fold_result g l1 b) (fold_result g l2).
Proof.
  revert b; induction l1 as [|x l1 IH]; intro b; simpl; [reflexivity|].
  destruct (g b x); [apply IH | reflexivity].
Qed.

Lemma visit_operation_seeds fuel service set operation :
  visit_operation fuel service set operation
  = fold_result (fun s n => visit_shapes fuel service n s) (operation_seeds operation) set.
Proof.
  unfold visit_operation, operation_seeds.
  rewrite fold_result_app.
  destruct (Operation.input operation) as [i|]; simpl;
  [destruct (visit_shapes fuel service i set) as [s1|m]; simpl; [|reflexivity]|];
  rewrite fold_result_app;
  (destruct (Operation.output operation) as [o|]; simpl;
   [destruct (visit_shapes fuel service o _) as [s2|m']; simpl; [|reflexivity]|];
   destruct (Operation.errors operation); reflexivity).
Qed.

Lemma find_shapes_seeds service :
  find_shapes_to_generate service
  = fold_result (fun s n => visit_shapes (S (length (Service.shapes service))) service n s)
      (service_seeds service) [].
Proof.
  unfold find_shapes_to_generate, service_seeds.
  generalize (@nil string).
  induction (Service.operations service) as [|op ops IH]; intro b; simpl; [reflexivity|].
  rewrite visit_operation_seeds, fold_result_app.
  destruct (fold_result _ (operation_seeds (snd op)) b); simpl; [apply IH|reflexivity].
Qed.

Lemma child_reachable service p c :
  child service p c -> reachable service p -> reachable service c.
Proof.
  intros (shape & cs & Hg & Hcs & Ic) Hp.
  unfold shape_children in Hcs.
  destruct (Shape.shape_type shape) eqn:Ht; try (injection Hcs as <-; destruct Ic).
  - unfold Shape.member_type in Hcs.
    destruct (Shape.member shape) as [m|] eqn:Hm; simpl in Hcs; [|discriminate].
    injection Hcs as <-. destruct Ic as [<-|[]].
    exact (reach_list_element _ _ _ _ Hp Hg Ht Hm).
  - unfold Shape.key_type, Shape.value_type in Hcs.
    destruct (Shape.key shape) as [k|] eqn:Hk; simpl in Hcs; [|discriminate].
    destruct (Shape.value shape) as [v|] eqn:Hv; simpl in Hcs; [|discriminate].
    injection Hcs as <-. destruct Ic as [<-|[<-|[]]].
    + exact (reach_map_key _ _ _ _ Hp Hg Ht Hk).
    + exact (reach_map_value _ _ _ _ Hp Hg Ht Hv).
  - destruct (Shape.members shape) as [ms|] eqn:Hms; injection Hcs as <-; [|destruct Ic].
    apply in_map_iff in Ic as ([k m] & <- & Ikm).
    exact (reach_struct_member _ _ _ _ _ _ Hp Hg Ht Hms Ikm).
Qed.

Lemma reachable_step_child service n shape m :
  refs_resolve service = true -> Service.get_shape service n = Some shape ->
  ((Shape.shape_type shape = ShapeType.List /\ Shape.member shape = Some m)
   \/ (Shape.shape_type shape = ShapeType.Map /\ Shape.key shape = Some m)
   \/ (Shape.shape_type shape = ShapeType.Map /\ Shape.value shape = Some m)
   \/ (Shape.shape_type shape = ShapeType.Structure
       /\ exists ms k, Shape.members shape = Some ms /\ In (k, m) ms)) ->
  child service n (Member.shape m).
Proof.
  intros Hr Hg Hcase.
  destruct (refs_resolve_children _ _ _ Hr Hg) as (cs & Hcs & _).
  exists shape, cs. split; [exact Hg|]. split; [exact Hcs|].
  unfold shape_children, Shape.member_type, Shape.key_type, Shape.value_type in Hcs.
  destruct Hcase as [[Ht Hm]|[[Ht Hm]|[[Ht Hm]|[Ht (ms & k & Hms & Ikm)]]]];
    rewrite Ht in Hcs.
  - rewrite Hm in Hcs. injection Hcs as <-. now left.
  - rewrite Hm in Hcs. destruct (Shape.value shape); simpl in Hcs; [|discriminate].
    injection Hcs as <-. now left.
  - rewrite Hm in Hcs. destruct (Shape.key shape); simpl in Hcs; [|discriminate].
    injection Hcs as <-. right; now left.
  - rewrite Hms in Hcs. injection Hcs as <-.
    apply in_map_iff. exists (k, m). split; [reflexivity|exact Ikm].
Qed.

Lemma strongly_sorted_unique l1 l2 :
  StronglySorted lt l1 -> StronglySorted lt l2 ->
  (forall x, In x l1 <-> In x l2) -> l1 = l2.
Proof.
  revert l2; induction l1 as [|a l1 IH]; intros l2 H1 H2 He.
  - destruct l2 as [|b l2]; [reflexivity|]. exfalso. apply (proj2 (He b)). now left.
  - destruct l2 as [|b l2]; [exfalso; apply (proj1 (He a)); now left|].
    inversion H1 as [|? ? S1 F1]; inversion H2 as [|? ? S2 F2]; subst.
    rewrite Forall_forall in F1, F2.
    assert (Eab : a = b).
    { destruct (proj1 (He a) (or_introl eq_refl)) as [->|Ia]; [reflexivity|].
      destruct (proj2 (He b) (or_introl eq_refl)) as [->|Ib]; [reflexivity|].
      exfalso. apply (lt_irrefl a). eapply lt_trans; [exact (F1 b Ib)|exact (F2 a Ia)]. }
    subst b. f_equal. apply IH; [exact S1|exact S2|].
    intro x. split; intro Ix.
    + destruct (proj1 (He x) (or_intror Ix)) as [<-|I]; [|exact I].
      exfalso. exact (lt_irrefl _ (F1 _ Ix)).
    + destruct (proj2 (He x) (or_intror Ix)) as [<-|I]; [|exact I].
      exfalso. exact (lt_irrefl _ (F2 _ Ix)).
Qed.

Lemma new_ok_mono service W W' y : incl W W' -> new_ok service W y -> new_ok service W' y.
Proof.
  intros Hi (shape & cs & Hg & Hc & Hcs). exists shape, cs. split; [exact Hg|].
  split; [exact Hc|]. intros x Ix. exact (Hi x (Hcs x Ix)).
Qed.

Lemma fold_visit_ok service f :
  (forall n V V', StronglySorted lt V -> visit_shapes f service n V = Ok V' ->
                  visit_ok_post service n V V') ->
  forall cs V V', StronglySorted lt V ->
    fold_result (fun v c => visit_shapes f service c v) cs V = Ok V' ->
    StronglySorted lt V' /\ incl cs V' /\ incl V V'
    /\ (forall y, In y V' -> ~ In y V -> new_ok service V' y).
Proof.
  intros Hf cs. induction cs as [|c cs IH]; intros V V' Hs E; simpl in E.
  - injection E as <-. split; [exact Hs|]. split; [intros x []|].
    split; [intros x Ix; exact Ix|]. intros y Iy Ny. contradiction.
  - destruct (visit_shapes f service c V) as [V1|m] eqn:E1; [|discriminate].
    destruct (Hf _ _ _ Hs E1) as (Hs1 & Ic1 & Hi1 & Hn1).
    destruct (IH _ _ Hs1 E) as (Hs' & Ics & Hi' & Hn').
    split; [exact Hs'|]. split.
    + intros x [<-|Ix]; [exact (Hi' _ Ic1)|exact (Ics _ Ix)].
    + split; [intros x Ix; exact (Hi' _ (Hi1 _ Ix))|].
      intros y Iy Ny. destruct (in_dec string_dec y V1) as [I1|N1].
      * exact (new_ok_mono _ _ _ _ Hi' (Hn1 y I1 Ny)).
      * exact (Hn' y Iy N1).
Qed.

Lemma visit_shapes_ok service fuel :
  forall n V V', StronglySorted lt V -> visit_shapes fuel service n V = Ok V' ->
                 visit_ok_post service n V V'.
Proof.
  induction fuel as [|f IH]; intros n V V' Hs E; simpl in E; [discriminate|].
  destruct (Service.get_shape service n) as [shape|] eqn:Hg; simpl in E; [|discriminate].
  pose proof (btree_insert_spec n V Hs) as Hb.
  destruct (btree_insert n V) as [fresh V1].
  destruct Hb as (Hs1 & Hm1 & Hf1).
  destruct fresh.
  - destruct (shape_children shape) as [cs|m] eqn:Hc; simpl in E; [|discriminate].
    destruct (fold_visit_ok service f IH cs V1 V' Hs1 E) as (Hs' & Ics & Hi' & Hn').
    split; [exact Hs'|]. split; [apply Hi', Hm1; now left|].
    split; [intros x Ix; apply Hi', Hm1; now right|].
    intros y Iy Ny. destruct (in_dec string_dec y V1) as [I1|N1]; [|exact (Hn' y Iy N1)].
    apply Hm1 in I1. destruct I1 as [->|I]; [|contradiction].
    exists shape, cs. tauto.
  - subst V1. injection E as <-. split; [exact Hs|].
    split; [apply Hm1; now left|]. split; [intros x Ix; exact Ix|].
    intros y Iy Ny. contradiction.
Qed.

Lemma children_step service n shape cs m :
  Service.get_shape service n = Some shape -> shape_children shape = Ok cs ->
  ((Shape.shape_type shape = ShapeType.List /\ Shape.member shape = Some m)
   \/ (Shape.shape_type shape = ShapeType.Map /\ Shape.key shape = Some m)
   \/ (Shape.shape_type shape = ShapeType.Map /\ Shape.value shape = Some m)
   \/ (Shape.shape_type shape = ShapeType.Structure
       /\ exists ms k, Shape.members shape = Some ms /\ In (k, m) ms)) ->
  In (Member.shape m) cs.
Proof.
  intros Hg Hcs Hcase.
  unfold shape_children, Shape.member_type, Shape.key_type, Shape.value_type in Hcs.
  destruct Hcase as [[Ht Hm]|[[Ht Hm]|[[Ht Hm]|[Ht (ms & k & Hms & Ikm)]]]];
    rewrite Ht in Hcs.
  - rewrite Hm in Hcs. injection Hcs as <-. now left.
  - rewrite Hm in Hcs. destruct (Shape.value shape); simpl in Hcs; [|discriminate].
    injection Hcs as <-. now left.
  - rewrite Hm in Hcs. destruct (Shape.key shape); simpl in Hcs; [|discriminate].
    injection Hcs as <-. right; now left.
  - rewrite Hms in Hcs. injection Hcs as <-.
    apply in_map_iff. exists (k, m). split; [reflexivity|exact Ikm].
Qed.

Lemma find_shapes_ok_reachable service names :
  find_shapes_to_generate service = Ok names ->
  forall n, reachable service n -> In n names /\ resolves service n = true.
Proof.
  intro E. rewrite find_shapes_seeds in E.
  destruct (fold_visit_ok service _ (visit_shapes_ok service _) _ [] names
              (SSorted_nil _) E) as (_ & Isd & _ & Hn).
  assert (Hin : forall n, reachable service n -> In n names).
  { induction 1 as [n Hn0|n shape m Hn0 IHn Hg Ht Hm|n shape m Hn0 IHn Hg Ht Hm
                   |n shape m Hn0 IHn Hg Ht Hm|n shape ms k m Hn0 IHn Hg Ht Hms Ikm];
    [exact (Isd n Hn0)| ..];
    destruct (Hn n IHn (fun x => x)) as (shape' & cs & Hg' & Hc & Hcs);
    rewrite Hg in Hg'; injection Hg' as <-;
    apply Hcs; apply (children_step service n shape cs m Hg Hc).
    - tauto.
    - tauto.
    - tauto.
    - right; right; right. split; [exact Ht|]. exists ms, k. tauto. }
  intros n Hr. split; [exact (Hin n Hr)|].
  destruct (Hn n (Hin n Hr) (fun x => x)) as (shape & _ & Hg & _).
  unfold resolves. rewrite Hg. reflexivity.
Qed.

(** C6 (as amended): when every shape reference resolves,
    [find_shapes_to_generate] terminates, also on cyclic shape graphs, and
    returns exactly the shape names reachable from the operations' inputs,
    outputs and errors through list elements, map keys and values and
    structure members, each once, in strictly increasing lexicographic
    order: the only such list. Whatever the service, a reachable reference
    that names no shape makes it panic. *)
Theorem find_shapes_to_generate_reachable service :
  (refs_resolve service = true ->
   exists names,
     find_shapes_to_generate service = Ok names
     /\ StronglySorted lt names
     /\ (forall n, In n names <-> reachable service n)
     /\ (forall names', StronglySorted lt names' ->
                        (forall n, In n names' <-> reachable service n) -> names' = names))
  /\ (forall n, reachable service n -> Service.get_shape service n = None ->
                exists msg, find_shapes_to_generate service = Err msg).
Proof.
  split.
  2:{ intros n Hn Hg.
       destruct (find_shapes_to_generate service) as [names|msg] eqn:E; [|now exists msg].
       destruct (find_shapes_ok_reachable service names E n Hn) as [_ Hres].
       unfold resolves in Hres. rewrite Hg in Hres. discriminate. }
  intro Hr.
  assert (Hseeds : forallb (resolves service) (service_seeds service) = true)
    by (apply andb_prop in Hr; apply Hr).
  assert (H0 : visited_ok service []) by (split; [constructor | intros y []]).
  destruct (visit_loop_spec service (S (length (Service.shapes service)))
              (visit_shapes_spec service Hr _)
              (service_seeds service) [] Hseeds H0 ltac:(simpl; lia))
    as (names & E & [Hso _] & _ & Hsd & Hs & Hc).
  assert (Hiff : forall n, In n names <-> reachable service n).
  { intro n. split.
    - intro In_. destruct (Hs n In_) as [[]|(c & Ic & R)].
      apply clos_rt_rt1n in R.
      assert (Hc0 : reachable service c) by (now apply reach_seed).
      clear -R Hc0. induction R as [|x y z Hxy _ IHR]; [exact Hc0|].
      apply IHR. exact (child_reachable _ _ _ Hxy Hc0).
    - induction 1 as [n Hn|n shape m Hn IHn Hg Ht Hm|n shape m Hn IHn Hg Ht Hm
                     |n shape m Hn IHn Hg Ht Hm|n shape ms k m Hn IHn Hg Ht Hms Ikm].
      + exact (Hsd n Hn).
      + apply (Hc n IHn (fun x => x) _ (reachable_step_child service n shape m Hr Hg ltac:(tauto))).
      + apply (Hc n IHn (fun x => x) _ (reachable_step_child service n shape m Hr Hg ltac:(tauto))).
      + apply (Hc n IHn (fun x => x) _ (reachable_step_child service n shape m Hr Hg ltac:(tauto))).
      + apply (Hc n IHn (fun x => x) _ (reachable_step_child service n shape m Hr Hg
                 ltac:(right; right; right; split; [exact Ht| exists ms, k; tauto]))). }
  exists names. split; [rewrite find_shapes_seeds; exact E|].
  split; [exact Hso|]. split; [exact Hiff|].
  intros names' Hso' Hiff'. apply strongly_sorted_unique; [exact Hso'|exact Hso|].
  intro x. rewrite Hiff, Hiff'. reflexivity.
Qed.


(** C1, at a failing input: in service ["Foo"], the required member
    [created] of [Widget] is rendered [Option<String>], although the
    optional override for [created] is recorded for CodePipeline's
    [ActionRevision] only. *)
Theorem struct_field_created_optional_outside_codepipeline :
  Shape.required widget "created" = true
  /\ struct_field snake_lower doc_plain foo_service widget "Widget" false serde_protocol
       "created" (mem "Str")
     = Ok (Some ["pub created: Option<String>,"]).
Proof. split; vm_compute; reflexivity. Qed.

Lemma append_type_not_type_underscore (p : string) : p ++ "type" <> "type_".
Proof.
  intro H.
  assert (Hl : String.length (p ++ "type") = 5) by (rewrite H; reflexivity).
  rewrite string_length_append in Hl. simpl in Hl.
  destruct p as [|c [|c' p]]; simpl in Hl; [discriminate| |lia].
  simpl in H. congruence.
Qed.

(** C2 is false as stated: the member ["type"] becomes the field [type_],
    an underscore suffix, not a prefix before ["type"]. *)
Lemma struct_field_type_suffix_not_prefix :
  struct_field snake_lower doc_plain foo_service widget "Widget" false serde_protocol
    "type" (mem "Str") = Ok (Some ["pub type_: String,"])
  /\ forall p, p ++ "type" <> "type_".
Proof.
  split; [vm_compute; reflexivity|exact append_type_not_type_underscore].
Qed.

(** C3 is false as stated: in service ["Foo"] a shape named ["Option"]
    still resolves to RDS's override ["RDSOption"] instead of the base
    rule's ["Option"]. *)
Lemma mutate_type_name_option_outside_rds :
  Service.name foo_service = "Foo"
  /\ normalized_type_name "Option" = "Option"
  /\ mutate_type_name foo_service "Option" = "RDSOption".
Proof. repeat split; vm_compute; reflexivity. Qed.

(** C4 is false as stated: [Node] contains itself through [Other], yet
    neither back-edge member is boxed. *)
Lemma struct_field_transitive_cycle_unboxed :
  struct_field snake_lower doc_plain cyclic_service node "Node" false serde_protocol
    "other" (mem "Other") = Ok (Some ["pub other: Other,"])
  /\ struct_field snake_lower doc_plain cyclic_service other "Other" false serde_protocol
       "w" (mem "Node") = Ok (Some ["pub w: Node,"]).
Proof. split; vm_compute; reflexivity. Qed.

(** C5 is false as stated: ["ec2"] and ["query"] select the same
    generators. *)
Lemma select_generators_ec2_is_query :
  select_generators "ec2" = Ok (QueryGenerator, XmlErrorTypes)
  /\ select_generators "query" = Ok (QueryGenerator, XmlErrorTypes).
Proof. split; reflexivity. Qed.

(** C6 is false as stated for every Service Definition: when an
    operation's input names no shape, [find_shapes_to_generate] panics. *)
Lemma find_shapes_to_generate_dangling_panics :
  find_shapes_to_generate dangling_service
  = Err "Shape type missing from service definition".
Proof. vm_compute. reflexivity. Qed.

(** C7 is false as stated: in Kinesis the reachable exception structure
    named ["String"] gets no data type. *)
Lemma generate_types_kinesis_string_exception_no_struct :
  Service.get_shape kinesis_service "String" = Some string_exception
  /\ Shape.exception string_exception = true
  /\ (exists names, find_shapes_to_generate kinesis_service = Ok names /\ In "String" names)
  /\ generate_type snake_lower doc_plain kinesis_service serde_protocol [] [] "String" []
     = (Ok tt, []).
Proof.
  split; [reflexivity|]. split; [reflexivity|]. split.
  - eexists. split; [vm_compute; reflexivity|]. simpl. tauto.
  - vm_compute. reflexivity.
Qed.

(** * Witnesses *)

Lemma struct_field_type_escaped_witness :
  In (snake_lower "type") ["return"; "type"; "match"]
  /\ struct_field snake_lower doc_plain foo_service widget "Widget" true serde_protocol
       "type" (mem "Str") = Ok (Some [serde_rename_attr "type"; "pub type_: String,"])
  /\ exists pre tail,
       [serde_rename_attr "type"; "pub type_: String,"]
       = app pre ["pub " ++ snake_lower "type" ++ "_: " ++ tail]
       /\ (true = true -> In (serde_rename_attr "type") pre).
Proof.
  split; [simpl; tauto|]. split; [vm_compute; reflexivity|].
  apply (struct_field_type_escaped snake_lower doc_plain foo_service widget "Widget" true
           serde_protocol "type" (mem "Str")); [simpl; tauto|vm_compute; reflexivity].
Defined.

Lemma struct_field_box_only_self_reference_witness :
  struct_field snake_lower doc_plain foo_service tree "Tree" false serde_protocol
    "next" (mem "Tree") = Ok (Some ["pub next: Box<Option<Tree>>,"])
  /\ (let name := generate_field_name snake_lower "next" in
      exists pre member_shape rs_type,
        Service.shape_for_member foo_service (mem "Tree") = Some member_shape
        /\ get_rust_type foo_service "Tree" member_shape false "f64" = Ok rs_type
        /\ exists decl, ["pub next: Box<Option<Tree>>,"] = app pre [decl]
        /\ ("Tree" = rs_type ->
            decl = if Shape.required tree "next"
                   then "pub " ++ name ++ ": Box<" ++ rs_type ++ ">,"
                   else "pub " ++ name ++ ": Box<Option<" ++ rs_type ++ ">>,")
        /\ ("Tree" <> rs_type ->
            decl = "pub " ++ name ++ ": " ++ rs_type ++ ","
            \/ decl = "pub " ++ name ++ ": Option<" ++ rs_type ++ ">,"
            \/ decl = "pub " ++ name
                      ++ ": Option<::std::collections::HashMap<String, Option<String>>>,")).
Proof.
  split; [vm_compute; reflexivity|].
  apply (struct_field_box_only_self_reference snake_lower doc_plain foo_service tree "Tree"
           false serde_protocol "next" (mem "Tree")).
  vm_compute. reflexivity.
Defined.

Lemma generate_source_ec2_uses_query_generator_witness :
  Service.protocol cyclic_service = "ec2"
  /\ generate_source snake_lower doc_plain (fun _ => ([], [])) (fun _ _ => ret tt)
       (fun _ => ret tt) (fun _ => serde_protocol) cyclic_service []
     = generate snake_lower doc_plain (fun _ => ([], [])) (fun _ _ => ret tt)
         (fun _ => ret tt) cyclic_service (serde_protocol) XmlErrorTypes []
  /\ select_generators "query" = Ok (QueryGenerator, XmlErrorTypes)
  /\ select_generators "json" = Ok (JsonGenerator, JsonErrorTypes)
  /\ select_generators "rest-json" = Ok (RestJsonGenerator, RestJsonErrorTypes)
  /\ select_generators "rest-xml" = Ok (RestXmlGenerator, XmlErrorTypes).
Proof.
  split; [reflexivity|].
  apply (generate_source_ec2_uses_query_generator snake_lower doc_plain (fun _ => ([], []))
           (fun _ _ => ret tt) (fun _ => ret tt) (fun _ => serde_protocol) cyclic_service []).
  reflexivity.
Defined.

Lemma find_shapes_to_generate_reachable_witness :
  (refs_resolve cyclic_service = true
   /\ exists names,
        find_shapes_to_generate cyclic_service = Ok names
        /\ StronglySorted lt names
        /\ (forall n, In n names <-> reachable cyclic_service n)
        /\ (forall names', StronglySorted lt names' ->
                           (forall n, In n names' <-> reachable cyclic_service n) ->
                           names' = names))
  /\ (reachable dangling_service "Missing"
      /\ Service.get_shape dangling_service "Missing" = None
      /\ exists msg, find_shapes_to_generate dangling_service = Err msg).
Proof.
  split.
  - split; [vm_compute; reflexivity|].
    apply (proj1 (find_shapes_to_generate_reachable cyclic_service)). vm_compute. reflexivity.
  - assert (Hr : reachable dangling_service "Missing")
      by (apply reach_seed; simpl; tauto).
    split; [exact Hr|]. split; [reflexivity|].
    apply (proj2 (find_shapes_to_generate_reachable dangling_service) "Missing" Hr).
    reflexivity.
Defined.

Lemma generate_type_exception_shapes_witness :
  Service.get_shape kinesis_service "ResourceNotFoundException" = Some not_found
  /\ Shape.exception not_found = true
  /\ ((Service.name kinesis_service <> "Kinesis" ->
       forall w, generate_type snake_lower doc_plain kinesis_service serde_protocol [] []
                   "ResourceNotFoundException" w = (Ok tt, w))
      /\ (Service.name kinesis_service = "Kinesis" ->
          Shape.shape_type not_found = ShapeType.Structure ->
          mutate_type_name kinesis_service "ResourceNotFoundException" <> "String" ->
          (forall s w,
             generate_struct snake_lower doc_plain kinesis_service
               (mutate_type_name kinesis_service "ResourceNotFoundException") not_found
               (is_streaming_shape kinesis_service "ResourceNotFoundException")
               (existsb (String.eqb (mutate_type_name kinesis_service "ResourceNotFoundException")) [])
               (existsb (String.eqb (mutate_type_name kinesis_service "ResourceNotFoundException")) [])
               serde_protocol = Ok s ->
             In s (snd (generate_type snake_lower doc_plain kinesis_service serde_protocol [] []
                          "ResourceNotFoundException" w)))
          /\ (forall names, find_shapes_to_generate kinesis_service = Ok names ->
              In "ResourceNotFoundException" names ->
              exists variants, error_variant_shapes kinesis_service = Ok variants
                               /\ In "ResourceNotFoundException" variants))).
Proof.
  split; [reflexivity|]. split; [reflexivity|].
  apply generate_type_exception_shapes; reflexivity.
Defined.

Lemma generate_source_unknown_protocol_panics_witness :
  ~ In (Service.protocol unknown_protocol_service)
      ["json"; "query"; "ec2"; "rest-json"; "rest-xml"]
  /\ generate_source snake_lower doc_plain (fun _ => ([], [])) (fun _ _ => ret tt)
       (fun _ => ret tt) (fun _ => serde_protocol) unknown_protocol_service ["header"]
     = (Err ("Unknown protocol " ++ Service.protocol unknown_protocol_service), ["header"]).
Proof.
  assert (H : ~ In (Service.protocol unknown_protocol_service)
                ["json"; "query"; "ec2"; "rest-json"; "rest-xml"])
    by (simpl; intuition discriminate).
  split; [exact H|].
  apply generate_source_unknown_protocol_panics. exact H.
Defined.

Lemma generate_struct_derives_clone_iff_not_streaming_witness :
  exists s,
    generate_struct snake_lower doc_plain foo_service "Widget" widget false true true
      serde_protocol = Ok s
    /\ exists rest,
         s = "#[derive(Default,Debug"
             ++ (if negb false && no_streaming_member widget then ",Clone,PartialEq" else "")
             ++ comma_each
                  (app (if true then option_to_list (serialize_trait serde_protocol) else [])
                       (if true then option_to_list (deserialize_trait serde_protocol) else []))
             ++ ")]" ++ rest.
Proof.
  destruct (generate_struct snake_lower doc_plain foo_service "Widget" widget false true true
              serde_protocol) as [s|e] eqn:E.
  - exists s. split; [reflexivity|].
    exact (generate_struct_derives_clone_iff_not_streaming snake_lower doc_plain foo_service
             "Widget" widget false true true serde_protocol s E).
  - vm_compute in E. discriminate E.
Defined.

(** * Further properties of the generator *)

(** [generate_field_name] never returns one of the words it escapes,
    [return], [type] or [match], whatever the snake-case conversion gives. *)
Theorem generate_field_name_not_reserved to_snake_case member_name :
  ~ In (generate_field_name to_snake_case member_name) ["return"; "type"; "match"].
Proof.
  unfold generate_field_name.
  destruct (String.eqb_spec (to_snake_case member_name) "return") as [E|N1];
    [rewrite E; simpl; intros [H|[H|[H|[]]]]; discriminate|].
  destruct (String.eqb_spec (to_snake_case member_name) "type") as [E|N2];
    [rewrite E; simpl; intros [H|[H|[H|[]]]]; discriminate|].
  destruct (String.eqb_spec (to_snake_case member_name) "match") as [E|N3];
    [rewrite E; simpl; intros [H|[H|[H|[]]]]; discriminate|].
  simpl. intros [H|[H|[H|[]]]]; congruence.
Qed.

Lemma underscore_free_spec s :
  underscore_free s = true -> forall p q, s <> p ++ "_" ++ q.
Proof.
  induction s as [|c s IH]; intros H p q E.
  - destruct p; discriminate.
  - simpl in H. apply andb_prop in H as [Hc Hs].
    destruct p as [|c' p]; simpl in E; injection E as E1 E2.
    + subst c. discriminate.
    + exact (IH Hs p q E2).
Qed.

Lemma remove_underscores_free s : underscore_free (remove_underscores s) = true.
Proof.
  induction s as [|c s IH]; [reflexivity|]. simpl.
  destruct (Ascii.eqb c "_") eqn:E; [exact IH|]. simpl. rewrite E. exact IH.
Qed.

(** Unless the normalized name is [Error] (which takes the service type
    name), the type name [mutate_type_name] returns holds no underscore. *)
Theorem mutate_type_name_underscore_free service type_name :
  normalized_type_name type_name <> "Error" ->
  forall p q, mutate_type_name service type_name <> p ++ "_" ++ q.
Proof.
  intros Hn p q. apply underscore_free_spec.
  unfold mutate_type_name. cbv zeta.
  change (remove_underscores (capitalize_first type_name)) with (normalized_type_name type_name).
  apply String.eqb_neq in Hn. rewrite Hn.
  destruct_ifs; try reflexivity. apply remove_underscores_free.
Qed.

Lemma ascii_to_upper_not_underscore c :
  c <> "_"%char -> ascii_to_upper c <> "_"%char.
Proof.
  intros Hc. unfold ascii_to_upper.
  destruct (Nat.leb 97 (nat_of_ascii c) && Nat.leb (nat_of_ascii c) 122) eqn:E; [|exact Hc].
  apply andb_prop in E as [E1 E2]. apply Nat.leb_le in E1, E2.
  intro H. apply (f_equal nat_of_ascii) in H.
  rewrite nat_ascii_embedding in H by lia. change (nat_of_ascii "_") with 95 in H. lia.
Qed.

Lemma normalized_remove_underscores a :
  (forall r, a <> String "_" r) ->
  normalized_type_name a = capitalize_first (remove_underscores a).
Proof.
  intro Ha. destruct a as [|c r]; [reflexivity|].
  assert (Hc : c <> "_"%char) by (intro E; subst c; exact (Ha r eq_refl)).
  unfold normalized_type_name. simpl.
  destruct (Ascii.eqb_spec (ascii_to_upper c) "_") as [E|_];
    [exfalso; exact (ascii_to_upper_not_underscore c Hc E)|].
  destruct (Ascii.eqb_spec c "_") as [E|_]; [contradiction|].
  reflexivity.
Qed.

(** Two shape names that do not start with an underscore and differ only
    in their underscores get the same Rust type name. *)
Theorem mutate_type_name_ignores_underscores service a b :
  (forall r, a <> String "_" r) -> (forall r, b <> String "_" r) ->
  remove_underscores a = remove_underscores b ->
  mutate_type_name service a = mutate_type_name service b.
Proof.
  intros Ha Hb E.
  assert (N : normalized_type_name a = normalized_type_name b)
    by (rewrite !normalized_remove_underscores by assumption; now rewrite E).
  unfold mutate_type_name. cbv zeta.
  change (remove_underscores (capitalize_first a)) with (normalized_type_name a).
  change (remove_underscores (capitalize_first b)) with (normalized_type_name b).
  now rewrite N.
Qed.

Lemma remove_underscores_app a b :
  remove_underscores (a ++ b) = remove_underscores a ++ remove_underscores b.
Proof.
  induction a as [|c a IH]; [reflexivity|]. simpl.
  destruct (Ascii.eqb c "_"); simpl; now rewrite IH.
Qed.

Lemma normalized_type_name_app a b :
  a <> "" -> normalized_type_name (a ++ b) = normalized_type_name a ++ remove_underscores b.
Proof.
  intro Ha. destruct a as [|c a]; [contradiction|].
  unfold normalized_type_name.
  change (capitalize_first (String c a ++ b)) with (String (ascii_to_upper c) a ++ b).
  apply remove_underscores_app.
Qed.

(** The error enum name of an operation [o] ([error_type_name]) is the
    type name of a shape named [o ++ "Error"] whenever neither name hits
    [Error] or a collision override: the two collide. *)
Theorem error_type_name_collides service o :
  normalized_type_name o <> "" ->
  ~ In (normalized_type_name o) ("Error" :: map fst collision_overrides) ->
  ~ In (normalized_type_name o ++ "Error") (map fst collision_overrides) ->
  mutate_type_name service (o ++ "Error") = error_type_name service o.
Proof.
  intros H0 H1 H2.
  assert (Ho : o <> "") by (intro E; subst o; apply H0; reflexivity).
  unfold error_type_name, mutate_type_name. cbv zeta.
  change (remove_underscores (capitalize_first (o ++ "Error")))
    with (normalized_type_name (o ++ "Error")).
  change (remove_underscores (capitalize_first o)) with (normalized_type_name o).
  rewrite (normalized_type_name_app _ _ Ho). change (remove_underscores "Error") with "Error".
  simpl in H1, H2.
  assert (HE : (normalized_type_name o ++ "Error" =? "Error") = false).
  { apply String.eqb_neq. intro E. apply (f_equal String.length) in E.
    rewrite string_length_append in E. simpl in E.
    destruct (normalized_type_name o); [contradiction|simpl in E; lia]. }
  rewrite HE.
  repeat match goal with
         | |- context [?x =? ?k] =>
             let E := fresh in
             destruct (String.eqb_spec x k) as [E|E];
             [exfalso; first [apply H1; rewrite E; tauto | apply H2; rewrite E; tauto] |]
         end.
  reflexivity.
Qed.

Lemma is_streaming_shape_member service shape_name shape ms member_name member :
  In (shape_name, shape) (Service.shapes service) ->
  Shape.members shape = Some ms -> In (member_name, member) ms ->
  Member.streaming member = true ->
  is_streaming_shape service (Member.shape member) = true.
Proof.
  intros Hin Hms Hm Hs. unfold is_streaming_shape. apply existsb_exists.
  exists (shape_name, shape). split; [exact Hin|].
  apply existsb_exists. exists member. split.
  - unfold streaming_members. rewrite Hms. apply filter_In. split; [|exact Hs].
    apply in_map_iff. exists (member_name, member). split; [reflexivity|exact Hm].
  - apply String.eqb_refl.
Qed.

(** For a streaming member of a structure, referring to a non-structure
    shape that is not an exception, the field is typed ["Streaming" ++]
    the raw shape name, while the loop body of [generate_types] for that
    shape writes the [ByteStream] alias named ["Streaming" ++] its mutated
    type name. *)
Theorem streaming_alias_name_vs_field_type to_snake_case doco_item service
    shape_name shape ms member_name member serde_attrs protocol_generator
    serialized_types deserialized_types member_shape lines w :
  In (shape_name, shape) (Service.shapes service) ->
  Shape.members shape = Some ms -> In (member_name, member) ms ->
  Member.streaming member = true ->
  struct_field to_snake_case doco_item service shape shape_name serde_attrs
    protocol_generator member_name member = Ok (Some lines) ->
  Service.get_shape service (Member.shape member) = Some member_shape ->
  Shape.exception member_shape = false ->
  Shape.shape_type member_shape <> ShapeType.Structure ->
  (exists pre,
     lines = app pre [struct_field_decl (Service.name service) shape shape_name member_name
                        (generate_field_name to_snake_case member_name)
                        ("Streaming" ++ Member.shape member)])
  /\ In ("pub type Streaming" ++ mutate_type_name service (Member.shape member)
         ++ " = ::rusoto_core::ByteStream;")
        (snd (generate_type to_snake_case doco_item service protocol_generator
                serialized_types deserialized_types (Member.shape member) w)).
Proof.
  intros Hin Hms Hm Hs Hsf Hg Hex Hty. split.
  - destruct (struct_field_lines _ _ _ _ _ _ _ _ _ _ Hsf) as (msh & rs & _ & Hr & ->).
    unfold get_rust_type in Hr. rewrite Hs in Hr. simpl in Hr. injection Hr as <-.
    eexists. rewrite app_assoc. reflexivity.
  - pose proof (is_streaming_shape_member _ _ _ _ _ _ Hin Hms Hm Hs) as Hst.
    unfold generate_type. rewrite Hg. cbn [unwrap]. rewrite bind_lift_Ok, Hex.
    cbn [andb]. cbv zeta.
    assert (Hne : ShapeType.eqb (Shape.shape_type member_shape) ShapeType.Structure = false).
    { unfold ShapeType.eqb. destruct (ShapeType.eq_dec _ _); [contradiction|reflexivity]. }
    rewrite Hne, bind_ret, Hst, bind_writeln.
    match goal with
    | |- In _ (snd (?k ?w1)) =>
        assert (Ha : appends k) by appends_tac;
        destruct (Ha w1) as [d Ed]; rewrite Ed
    end.
    apply in_or_app. left. apply in_or_app. right. left. reflexivity.
Qed.

(** For a protocol that derives no serialization trait, whether the type
    is serialized or deserialized does not change [generate_struct]'s
    output. *)
Theorem generate_struct_flags_inert_without_traits to_snake_case doco_item service name
    shape streaming serialized deserialized protocol_generator :
  serialize_trait protocol_generator = None ->
  deserialize_trait protocol_generator = None ->
  generate_struct to_snake_case doco_item service name shape streaming serialized
    deserialized protocol_generator
  = generate_struct to_snake_case doco_item service name shape streaming false false
      protocol_generator.
Proof.
  intros H1 H2. unfold generate_struct, struct_derives. rewrite H1, H2.
  destruct serialized, deserialized; reflexivity.
Qed.

(** For a protocol deriving [Serialize] and [Deserialize], the struct's
    derive line is followed by the test-only [Serialize] derive exactly when
    the type is deserialized but not serialized, and its fields carry serde
    attributes exactly when it is serialized or deserialized. *)
Theorem generate_struct_serde_layout to_snake_case doco_item service name shape
    streaming serialized deserialized protocol_generator s :
  serialize_trait protocol_generator = Some "Serialize" ->
  deserialize_trait protocol_generator = Some "Deserialize" ->
  generate_struct to_snake_case doco_item service name shape streaming serialized
    deserialized protocol_generator = Ok s ->
  let attrs := "#[derive(" ++ String.concat ","
                 (struct_derives shape streaming serialized deserialized protocol_generator)
                 ++ ")]" in
  let cfg := if deserialized && negb serialized
             then nl ++ "#[cfg_attr(any(test, feature = " ++ dq ++ "serialize_structs" ++ dq
                  ++ "), derive(Serialize))]"
             else "" in
  (exists rest, s = attrs ++ cfg ++ nl ++ "pub struct " ++ name ++ rest)
  /\ (forall ms, Shape.members shape = Some ms -> ms <> [] ->
      exists fields,
        generate_struct_fields to_snake_case doco_item service shape name
          (serialized || deserialized) protocol_generator = Ok fields
        /\ s = attrs ++ cfg ++ nl ++ "pub struct " ++ name ++ " {" ++ nl ++ fields
               ++ nl ++ "}" ++ nl).
Proof.
  intros H1 H2 H attrs cfg.
  assert (Hd : existsb (String.eqb "Deserialize")
                 (struct_derives shape streaming serialized deserialized protocol_generator)
               && negb (existsb (String.eqb "Serialize")
                 (struct_derives shape streaming serialized deserialized protocol_generator))
               = deserialized && negb serialized).
  { unfold struct_derives. rewrite H1, H2.
    destruct (negb streaming && _), serialized, deserialized; reflexivity. }
  assert (Hn : existsb (fun x => (x =? "Serialize") || (x =? "Deserialize"))
                 (struct_derives shape streaming serialized deserialized protocol_generator)
               = serialized || deserialized).
  { unfold struct_derives. rewrite H1, H2.
    destruct (negb streaming && _), serialized, deserialized; reflexivity. }
  unfold generate_struct in H. cbv zeta in H. rewrite Hd, Hn in H. fold attrs cfg in H.
  destruct (Shape.members shape) as [[|m ms]|] eqn:Hm.
  - injection H as <-. split; [eexists; reflexivity|].
    intros ms' E Hne. injection E as <-. contradiction.
  - destruct (generate_struct_fields _ _ _ _ _ _ _) as [f|e] eqn:Ef; simpl in H;
      [|discriminate].
    injection H as <-. split; [eexists; reflexivity|].
    intros ms' _ _. exists f. split; reflexivity.
  - injection H as <-. split; [eexists; reflexivity|]. intros ms' E. discriminate.
Qed.

Lemma struct_field_required_names to_snake_case doco_item service s1 s2 shape_name
    serde_attrs protocol_generator member_name member :
  Shape.required_names s1 = Shape.required_names s2 ->
  struct_field to_snake_case doco_item service s1 shape_name serde_attrs
    protocol_generator member_name member
  = struct_field to_snake_case doco_item service s2 shape_name serde_attrs
      protocol_generator member_name member.
Proof.
  intro H. unfold struct_field, serde_lines, struct_field_decl, Shape.required.
  rewrite H. reflexivity.
Qed.

(** Deprecated members have no effect on [generate_struct_fields]: the
    output is that of the shape with them removed (including when their
    shape does not resolve). *)
Theorem generate_struct_fields_ignore_deprecated to_snake_case doco_item service shape
    shape_name serde_attrs protocol_generator :
  generate_struct_fields to_snake_case doco_item service (without_deprecated shape)
    shape_name serde_attrs protocol_generator
  = generate_struct_fields to_snake_case doco_item service shape shape_name serde_attrs
      protocol_generator.
Proof.
  unfold generate_struct_fields. simpl.
  destruct (Shape.members shape) as [ms|]; simpl; [|reflexivity].
  assert (Hf : forall acc,
             fold_result
               (fun acc p =>
                  o <-? struct_field to_snake_case doco_item service (without_deprecated shape)
                          shape_name serde_attrs protocol_generator (fst p) (snd p) ;;
                  Ok (app acc (option_to_list (option_map (String.concat nl) o))))
               (filter (fun p => negb (is_deprecated (snd p))) ms) acc
             = fold_result
                 (fun acc p =>
                    o <-? struct_field to_snake_case doco_item service shape
                            shape_name serde_attrs protocol_generator (fst p) (snd p) ;;
                    Ok (app acc (option_to_list (option_map (String.concat nl) o))))
                 ms acc).
  { induction ms as [|[k m] ms IH]; intro acc; [reflexivity|].
    cbn [filter snd].
    destruct (is_deprecated m) eqn:Hd; cbn [negb fold_result fst snd].
    - assert (E : struct_field to_snake_case doco_item service shape shape_name serde_attrs
                    protocol_generator k m = Ok None)
        by (unfold struct_field; unfold is_deprecated in Hd;
            destruct (Member.deprecated m) as [[|]|]; congruence).
      rewrite E. simpl. rewrite app_nil_r. apply IH.
    - rewrite (struct_field_required_names _ _ _ (without_deprecated shape) shape)
        by reflexivity.
      destruct (struct_field _ _ _ shape _ _ _ k m) as [o|e]; simpl; [apply IH|reflexivity]. }
  rewrite Hf. reflexivity.
Qed.

Lemma fold_result_err {A B} (f : B -> A -> result B) x l :
  In x l -> (forall b, exists e, f b x = Err e) ->
  forall b, exists e, fold_result f l b = Err e.
Proof.
  intros Hin Hx. induction l as [|y l IH]; [contradiction|]. intro b.
  destruct Hin as [->|Hin].
  - destruct (Hx b) as [e E]. exists e. simpl. rewrite E. reflexivity.
  - simpl. destruct (f b y) as [b'|e]; [exact (IH Hin b')|]. exists e. reflexivity.
Qed.

(** A non-deprecated member whose shape is missing from the service makes
    [generate_struct] panic. *)
Theorem generate_struct_unresolved_member_panics to_snake_case doco_item service name
    shape streaming serialized deserialized protocol_generator ms member_name member :
  Shape.members shape = Some ms -> In (member_name, member) ms ->
  is_deprecated member = false ->
  Service.shape_for_member service member = None ->
  exists msg, generate_struct to_snake_case doco_item service name shape streaming
                serialized deserialized protocol_generator = Err msg.
Proof.
  intros Hm Hin Hd Hs.
  assert (Hf : forall serde, exists e,
             generate_struct_fields to_snake_case doco_item service shape name serde
               protocol_generator = Err e).
  { intro serde. unfold generate_struct_fields. rewrite Hm. simpl.
    match goal with
    | |- context [fold_result ?f ms ?b0] =>
        assert (Hx : forall b, exists e, f b (member_name, member) = Err e);
        [|destruct (fold_result_err f (member_name, member) ms Hin Hx b0) as [e E];
          rewrite E; exists e; reflexivity]
    end.
    intro b. cbn [fst snd]. unfold struct_field.
    unfold is_deprecated in Hd.
    destruct (Member.deprecated member) as [[|]|]; try discriminate;
      rewrite Hs; simpl; eexists; reflexivity. }
  unfold generate_struct. cbv zeta. rewrite Hm.
  destruct ms as [|p ms]; [contradiction|].
  edestruct Hf as [e E]. rewrite E. exists e. reflexivity.
Qed.

(** A service without operations gets no types from [generate_types],
    whatever shapes it declares. *)
Theorem generate_types_no_operations to_snake_case doco_item filter_types service
    protocol_generator w :
  Service.operations service = [] ->
  generate_types to_snake_case doco_item filter_types service protocol_generator w
  = (Ok tt, w).
Proof.
  intro H. unfold generate_types. destruct (filter_types service).
  unfold find_shapes_to_generate. rewrite H. reflexivity.
Qed.

Lemma mutate_type_name_underscore_free_witness :
  normalized_type_name "cloud_front_origin" <> "Error"
  /\ (forall p q, mutate_type_name foo_service "cloud_front_origin" <> p ++ "_" ++ q).
Proof.
  assert (H : normalized_type_name "cloud_front_origin" <> "Error")
    by (vm_compute; discriminate).
  split; [exact H | exact (mutate_type_name_underscore_free foo_service _ H)].
Defined.

Lemma mutate_type_name_ignores_underscores_witness :
  remove_underscores "Foo_Bar" = remove_underscores "FooBar"
  /\ mutate_type_name foo_service "Foo_Bar" = mutate_type_name foo_service "FooBar".
Proof.
  split; [reflexivity|].
  apply mutate_type_name_ignores_underscores;
    [intros r E; discriminate E | intros r E; discriminate E | reflexivity].
Defined.

Lemma error_type_name_collides_witness :
  error_type_name kinesis_service "DescribeStream" = "DescribeStreamError"
  /\ mutate_type_name kinesis_service ("DescribeStream" ++ "Error")
     = error_type_name kinesis_service "DescribeStream".
Proof.
  split; [reflexivity|].
  apply error_type_name_collides;
    [vm_compute; discriminate | vm_compute; intuition discriminate
    | vm_compute; intuition discriminate].
Defined.

Lemma streaming_alias_name_vs_field_type_witness :
  struct_field snake_lower doc_plain streaming_service get_object_output "GetObjectOutput"
    false serde_protocol "Body" body_member = Ok (Some ["pub Body: Option<Streamingbody>,"])
  /\ In "pub type StreamingBody = ::rusoto_core::ByteStream;"
        (snd (generate_type snake_lower doc_plain streaming_service serde_protocol [] []
                "body" [])).
Proof.
  assert (Hf : struct_field snake_lower doc_plain streaming_service get_object_output
                 "GetObjectOutput" false serde_protocol "Body" body_member
               = Ok (Some ["pub Body: Option<Streamingbody>,"]))
    by (vm_compute; reflexivity).
  split; [exact Hf|].
  refine (proj2 (streaming_alias_name_vs_field_type snake_lower doc_plain streaming_service
                   "GetObjectOutput" get_object_output [("Body", body_member)] "Body"
                   body_member false serde_protocol [] [] (prim ShapeType.Blob)
                   ["pub Body: Option<Streamingbody>,"] [] _ _ _ _ Hf _ _ _));
    first [left; reflexivity | reflexivity | discriminate].
Defined.

Lemma generate_struct_flags_inert_without_traits_witness :
  serialize_trait plain_protocol = None /\ deserialize_trait plain_protocol = None
  /\ generate_struct snake_lower doc_plain foo_service "Widget" widget false true true
       plain_protocol
     = generate_struct snake_lower doc_plain foo_service "Widget" widget false false false
         plain_protocol.
Proof.
  split; [reflexivity|]. split; [reflexivity|].
  apply generate_struct_flags_inert_without_traits; reflexivity.
Defined.

Lemma generate_struct_serde_layout_witness :
  exists s,
    generate_struct snake_lower doc_plain foo_service "Widget" widget false false true
      serde_protocol = Ok s
    /\ exists rest,
         s = "#[derive(Default,Debug,Clone,PartialEq,Deserialize)]" ++ nl
             ++ "#[cfg_attr(any(test, feature = " ++ dq ++ "serialize_structs" ++ dq
             ++ "), derive(Serialize))]" ++ nl ++ "pub struct Widget" ++ rest.
Proof.
  destruct (generate_struct snake_lower doc_plain foo_service "Widget" widget false false true
              serde_protocol) as [s|e] eqn:E; [|vm_compute in E; discriminate E].
  exists s. split; [reflexivity|].
  destruct (generate_struct_serde_layout snake_lower doc_plain foo_service "Widget" widget
              false false true serde_protocol s eq_refl eq_refl E) as [[rest Hr] _].
  exists rest. rewrite Hr. reflexivity.
Defined.

Lemma generate_struct_unresolved_member_panics_witness :
  Service.get_shape foo_service "Missing" = None
  /\ exists msg, generate_struct snake_lower doc_plain foo_service "Legacy" legacy_broken
                   false false true serde_protocol = Err msg.
Proof.
  split; [reflexivity|].
  apply (generate_struct_unresolved_member_panics snake_lower doc_plain foo_service "Legacy"
           legacy_broken false false true serde_protocol [("old", mem "Missing")] "old"
           (mem "Missing")); [reflexivity | left; reflexivity | reflexivity | reflexivity].
Defined.

Lemma generate_types_no_operations_witness :
  Service.operations streaming_service = []
  /\ generate_types snake_lower doc_plain (fun _ => ([], [])) streaming_service serde_protocol []
     = (Ok tt, []).
Proof.
  split; [reflexivity|].
  apply generate_types_no_operations. reflexivity.
Defined.
